(** * ssh_dashboard.py: the project-activity monitoring service

    A shallow embedding of [src/ssh_dashboard.py] and the properties of its
    snapshot aggregation.

    The program only reads the outside world: the file system, two external
    tools ([git], [ps]), the load average and the clock.  The world is an
    explicit record, every function of the source is a function of the
    world, and a call that may raise returns a [result] whose [Raise]
    carries the text [str(e)] gives.

    Scope of the model:
    - a path is the list of its components; [path_str] gives the text the
      program handles, and [os.path.join] appends a component;
    - a file is what [readlines] gives for it (or the error that opening or
      decoding it raises) and its modification time, an integer number of
      time units since the epoch, negative before it;
    - the file system has files, directories, directories that the process
      may not read, and symbolic links whose target is missing; it does not
      change while a request is served;
    - text is a sequence of characters with code points below 256; white
      space and letter case are those Python gives these code points;
    - [datetime.fromtimestamp(t).isoformat()] is a function of the world
      that raises for a time stamp outside the range of [datetime]. *)

From Stdlib Require Import String Ascii List ZArith QArith Lia Bool Arith.
From Stdlib Require Import Permutation.
Import ListNotations.

Set Warnings "-register-all".

Close Scope Q_scope.
Open Scope list_scope.
Open Scope string_scope.
Open Scope nat_scope.

(* ===================================================================== *)
(** ** Python strings *)
(* ===================================================================== *)

Module Str.

Definition nl : ascii := "010"%char.

(** [str.isspace] on the code points below 256, the characters [strip]
    removes: TAB, LF, VT, FF, CR, the four separators FS, GS, RS, US, the
    space, NEL (U+0085) and the no-break space (U+00A0). *)
Definition is_space (c : ascii) : bool :=
  let n := nat_of_ascii c in
  ((9 <=? n) && (n <=? 13)) || ((28 <=? n) && (n <=? 32))
  || (n =? 133) || (n =? 160).

(** [s.lstrip()] *)
Fixpoint lstrip (s : string) : string :=
  match s with
  | EmptyString => EmptyString
  | String c s' => if is_space c then lstrip s' else s
  end.

(** [s.rstrip()] *)
Fixpoint rstrip (s : string) : string :=
  match s with
  | EmptyString => EmptyString
  | String c s' =>
      match rstrip s' with
      | EmptyString => if is_space c then EmptyString else String c EmptyString
      | r => String c r
      end
  end.

(** [s.strip()] *)
Definition strip (s : string) : string := rstrip (lstrip s).

(** [s.split('\n')]: always at least one piece. *)
Fixpoint split_nl (s : string) : list string :=
  match s with
  | EmptyString => [EmptyString]
  | String c s' =>
      if Ascii.eqb c nl then EmptyString :: split_nl s'
      else match split_nl s' with
           | h :: t => String c h :: t
           | [] => [String c EmptyString]
           end
  end.

(** [s.endswith(suf)] *)
Definition endswith (s suf : string) : bool :=
  let n := String.length s in
  let m := String.length suf in
  (m <=? n) && String.eqb (substring (n - m) m s) suf.

(** [s.lower()] on the code points below 256: the letters A to Z, and
    U+00C0 to U+00DE but for the multiplication sign U+00D7. *)
Definition lower_char (c : ascii) : ascii :=
  let n := nat_of_ascii c in
  if ((65 <=? n) && (n <=? 90))
     || ((192 <=? n) && (n <=? 222) && negb (n =? 215))
  then ascii_of_nat (n + 32) else c.

Fixpoint lower (s : string) : string :=
  match s with
  | EmptyString => EmptyString
  | String c s' => String (lower_char c) (lower s')
  end.

(** [sub in s] *)
Fixpoint contains (sub s : string) : bool :=
  String.prefix sub s
  || match s with
     | EmptyString => false
     | String _ s' => contains sub s'
     end.

(** [s.replace(old, "")]: every non-overlapping occurrence of [old],
    scanning from the left, is removed; [skip] counts the characters of
    the occurrence being dropped. *)
Fixpoint remove_go (old : string) (skip : nat) (s : string) : string :=
  match s with
  | EmptyString => EmptyString
  | String c s' =>
      match skip with
      | S k => remove_go old k s'
      | O => if String.prefix old s
             then remove_go old (String.length old - 1) s'
             else String c (remove_go old 0 s')
      end
  end.

Definition remove_all (old s : string) : string :=
  match old with
  | EmptyString => s
  | _ => remove_go old 0 s
  end.

Definition truthy (s : string) : bool :=
  match s with EmptyString => false | _ => true end.

End Str.

(* ===================================================================== *)
(** ** Python values and dictionaries *)
(* ===================================================================== *)

(** The values the program puts into the documents it serves.  A [dict]
    keeps its keys in insertion order (that is the order [json.dumps]
    writes them in), so it is an association list. *)
Inductive pyval : Type :=
| PNone
| PInt (n : Z)
| PFloat (q : Q)
| PStr (s : string)
| PList (l : list pyval)
| PTuple (l : list pyval)
| PDict (d : list (string * pyval)).

Definition pydict : Type := list (string * pyval).

Module Dict.

(** [d[k]], as an option *)
Fixpoint get {V : Type} (k : string) (d : list (string * V)) : option V :=
  match d with
  | [] => None
  | (k', v) :: d' => if String.eqb k k' then Some v else get k d'
  end.

(** [d[k] = v]: an existing key keeps its place, a new one goes last. *)
Fixpoint set {V : Type} (k : string) (v : V) (d : list (string * V))
  : list (string * V) :=
  match d with
  | [] => [(k, v)]
  | (k', v') :: d' =>
      if String.eqb k k' then (k, v) :: d' else (k', v') :: set k v d'
  end.

(** the dictionary without its key [k] *)
Fixpoint remove {V : Type} (k : string) (d : list (string * V))
  : list (string * V) :=
  match d with
  | [] => []
  | (k', v') :: d' =>
      if String.eqb k k' then remove k d' else (k', v') :: remove k d'
  end.

End Dict.

(* ===================================================================== *)
(** ** Exceptions *)
(* ===================================================================== *)

(** The outcome of a call that may raise; [Raise e] carries [str(e)]. *)
Inductive result (A : Type) : Type :=
| Ok (a : A)
| Raise (e : string).

Arguments Ok {A} a.
Arguments Raise {A} e.

Definition rbind {A B : Type} (r : result A) (k : A -> result B) : result B :=
  match r with
  | Ok a => k a
  | Raise e => Raise e
  end.

Definition rmap {A B : Type} (f : A -> B) (r : result A) : result B :=
  rbind r (fun a => Ok (f a)).

Declare Scope result_scope.
Delimit Scope result_scope with result.
Notation "x <- r ;; k" := (rbind r (fun x => k))
  (at level 61, r at next level, right associativity) : result_scope.

(* ===================================================================== *)
(** ** The world the program reads *)
(* ===================================================================== *)

(** A path is its list of components below the root; [path_str] is the
    text the program handles. *)
Definition path : Type := list string.

Definition path_str (p : path) : string :=
  fold_right (fun c acc => "/" ++ c ++ acc) "" p.

(** A file carries its modification time and what [readlines] gives (or the
    error opening or decoding it raises); a directory carries its entries in
    the order the system lists them.  [Denied] is a directory that the
    process may not read: it can be seen, not listed.  [Broken] is a
    symbolic link whose target is missing: its directory lists the name,
    and every call that follows the link fails. *)
Inductive node : Type :=
| File (mtime : Z) (content : result (list string))
| Dir (mtime : Z) (entries : list (string * node))
| Denied (mtime : Z)
| Broken.

(** What [os.stat] finds: the modification time, or nothing for a link
    whose target is missing. *)
Definition node_mtime (n : node) : option Z :=
  match n with
  | File t _ => Some t
  | Dir t _ => Some t
  | Denied t => Some t
  | Broken => None
  end.

(** [entry.is_dir()], as [os.walk] asks it (links are followed). *)
Definition is_dir (n : node) : bool :=
  match n with
  | Dir _ _ => true
  | Denied _ => true
  | File _ _ => false
  | Broken => false
  end.

Fixpoint resolve_from (n : node) (p : path) : option node :=
  match p with
  | [] => Some n
  | c :: p' =>
      match n with
      | Dir _ es =>
          match Dict.get c es with
          | Some n' => resolve_from n' p'
          | None => None
          end
      | File _ _ => None
      | Denied _ => None
      | Broken => None
      end
  end.

Record CompletedProcess : Type := mkCompleted {
  returncode : Z;
  stdout : string
}.

Record World : Type := mkWorld {
  (** [datetime.now().isoformat()] *)
  now_iso : string;
  (** [datetime.fromtimestamp(t).isoformat()], in the local time zone; it
      raises when [t] is outside the range of [datetime] *)
  fromtimestamp_iso : Z -> result string;
  (** the root directory of the file system *)
  fs_root : node;
  (** [subprocess.run(args, capture_output=True, text=True)]; it raises
      when the program cannot be started *)
  subprocess_run : list string -> result CompletedProcess;
  (** [os.getloadavg()] *)
  os_getloadavg : result (Q * Q * Q)
}.

(* ===================================================================== *)
(** ** The [os] calls the program makes *)
(* ===================================================================== *)

Module OS.

Definition resolve (w : World) (p : path) : option node :=
  resolve_from (fs_root w) p.

Definition no_such_file (p : path) : string :=
  "[Errno 2] No such file or directory: '" ++ path_str p ++ "'".

Definition not_a_directory (p : path) : string :=
  "[Errno 20] Not a directory: '" ++ path_str p ++ "'".

Definition is_a_directory (p : path) : string :=
  "[Errno 21] Is a directory: '" ++ path_str p ++ "'".

Definition permission_denied (p : path) : string :=
  "[Errno 13] Permission denied: '" ++ path_str p ++ "'".

(** [os.path.join(root, name)] *)
Definition path_join (root : path) (name : string) : path :=
  (root ++ [name])%list.

(** [os.path.exists(p)]: never raises; false for a link whose target is
    missing. *)
Definition path_exists (w : World) (p : path) : bool :=
  match resolve w p with
  | Some Broken => false
  | Some _ => true
  | None => false
  end.

(** [os.listdir(p)]: the names of the entries; raises on a missing path,
    on a path that is not a directory and on a directory that may not be
    read. *)
Definition listdir (w : World) (p : path) : result (list string) :=
  match resolve w p with
  | Some (Dir _ es) => Ok (map fst es)
  | Some (File _ _) => Raise (not_a_directory p)
  | Some (Denied _) => Raise (permission_denied p)
  | Some Broken => Raise (no_such_file p)
  | None => Raise (no_such_file p)
  end.

(** [os.path.getmtime(p)] *)
Definition getmtime (w : World) (p : path) : result Z :=
  match resolve w p with
  | Some n =>
      match node_mtime n with
      | Some t => Ok t
      | None => Raise (no_such_file p)
      end
  | None => Raise (no_such_file p)
  end.

(** [open(p, 'r')] followed by [f.readlines()] *)
Definition readlines (w : World) (p : path) : result (list string) :=
  match resolve w p with
  | Some (File _ c) => c
  | Some (Dir _ _) => Raise (is_a_directory p)
  | Some (Denied _) => Raise (permission_denied p)
  | Some Broken => Raise (no_such_file p)
  | None => Raise (no_such_file p)
  end.

Definition dirnames (es : list (string * node)) : list string :=
  map fst (filter (fun e => is_dir (snd e)) es).

Definition filenames (es : list (string * node)) : list string :=
  map fst (filter (fun e => negb (is_dir (snd e))) es).

(** [os.walk] below a node: top-down, one triple (root, dirs, files) per
    directory that can be listed, the subdirectories in listing order.  A
    directory that may not be read is named among the [dirs] of its parent
    and yields no triple of its own: [os.walk] ignores the error of the
    listing. *)
Fixpoint walk_node (root : path) (n : node)
  : list (path * list string * list string) :=
  match n with
  | File _ _ => []
  | Denied _ => []
  | Broken => []
  | Dir _ es =>
      (root, dirnames es, filenames es)
      :: (fix subdirs (l : list (string * node)) :=
            match l with
            | [] => []
            | (name, child) :: l' =>
                (walk_node (path_join root name) child ++ subdirs l')%list
            end) es
  end.

(** [os.walk(top)]: a top that is missing, is not a directory or may not
    be read yields nothing (the listing error is ignored). *)
Definition walk (w : World) (top : path)
  : list (path * list string * list string) :=
  match resolve w top with
  | Some n => walk_node top n
  | None => []
  end.

End OS.

(* ===================================================================== *)
(** ** The program *)
(* ===================================================================== *)

Definition FLEXPORT_DIR : path :=
  ["Users"; "jfuginay"; "Documents"; "dev"; "Flexport"].
Definition IOS_DIR : path := OS.path_join FLEXPORT_DIR "FlexPort iOS".
Definition ANDROID_DIR : path := OS.path_join FLEXPORT_DIR "FlexPort Android".
Definition LOGS_DIR : path := OS.path_join FLEXPORT_DIR "terminal_logs".

(** A [for] loop whose body may raise. *)
Fixpoint for_each {S A : Type} (body : S -> A -> result S) (l : list A) (s : S)
  : result S :=
  match l with
  | [] => Ok s
  | a :: l' => rbind (body s a) (for_each body l')
  end.

(** [lines[-50:] if len(lines) > 50 else lines] *)
Definition last_50 {A : Type} (lines : list A) : list A :=
  if 50 <? length lines then skipn (length lines - 50) lines else lines.

(** One turn of the loop of [get_terminal_logs]. *)
Definition tail_log (w : World) (logs : pydict) (log_file : string) : pydict :=
  if Str.endswith log_file ".log" then
    let log_path := OS.path_join LOGS_DIR log_file in
    match OS.readlines w log_path with
    | Ok lines => Dict.set log_file (PList (map PStr (last_50 lines))) logs
    | Raise e => Dict.set log_file (PList [PStr ("Error reading log: " ++ e)]) logs
    end
  else logs.

Definition get_terminal_logs (w : World) : result pydict :=
  let logs : pydict := [] in
  if OS.path_exists w LOGS_DIR then
    (names <- OS.listdir w LOGS_DIR ;;
     Ok (fold_left (tail_log w) names logs))%result
  else Ok logs.

(** *** [get_last_modified] *)

(** The two variables of the search: [latest_time] and [latest_file]. *)
Definition latest : Type := (Z * option path)%type.

Definition scan_file (w : World) (extensions : list string) (root : path)
  (st : latest) (file : string) : result latest :=
  if existsb (fun ext => Str.endswith file ext) extensions then
    let filepath := OS.path_join root file in
    (mtime <- OS.getmtime w filepath ;;
     if (fst st <? mtime)%Z then Ok (mtime, Some filepath) else Ok st)%result
  else Ok st.

Definition scan_dir (w : World) (extensions : list string)
  (st : latest) (triple : path * list string * list string) : result latest :=
  let '(root, _, files) := triple in
  for_each (scan_file w extensions root) files st.

Definition scan_tree (w : World) (directory : path) (extensions : list string)
  : result latest :=
  for_each (scan_dir w extensions) (OS.walk w directory) (0%Z, None).

Definition get_last_modified (w : World) (directory : path)
  (extensions : list string) : pyval :=
  match scan_tree w directory extensions with
  | Ok (latest_time, Some latest_file) =>
      if Str.truthy (path_str latest_file) then
        let file := Str.remove_all (path_str directory)
                                   (path_str latest_file) in
        match fromtimestamp_iso w latest_time with
        | Ok time => PDict [("file", PStr file); ("time", PStr time)]
        | Raise _ => PNone
        end
      else PNone
  | Ok (_, None) => PNone
  | Raise _ => PNone
  end.

(** *** [get_git_info] *)

Definition no_git_repository : pyval :=
  PDict [("status", PStr "No git repository")].

(** [len(out.strip().split('\n')) if out.strip() else 0] *)
Definition count_changes (out : string) : nat :=
  if Str.truthy (Str.strip out)
  then length (Str.split_nl (Str.strip out))
  else 0.

Definition git_args (directory : path) (sub : list string) : list string :=
  ("git" :: "-C" :: path_str directory :: sub)%list.

Definition git_branch_args (directory : path) : list string :=
  git_args directory ["branch"; "--show-current"].
Definition git_status_args (directory : path) : list string :=
  git_args directory ["status"; "--porcelain"].
Definition git_log_args (directory : path) : list string :=
  git_args directory ["log"; "-1"; "--oneline"].

(** The body of the [try]: [Ok None] when the [if] is not taken. *)
Definition git_probe (w : World) (directory : path) : result (option pyval) :=
  if OS.path_exists w (OS.path_join directory ".git") then
    (r1 <- subprocess_run w (git_branch_args directory) ;;
     let branch :=
       if (returncode r1 =? 0)%Z then Str.strip (stdout r1) else "unknown" in
     r2 <- subprocess_run w (git_status_args directory) ;;
     let changes := count_changes (stdout r2) in
     r3 <- subprocess_run w (git_log_args directory) ;;
     let last_commit :=
       if (returncode r3 =? 0)%Z then Str.strip (stdout r3) else "No commits" in
     Ok (Some (PDict [("branch", PStr branch);
                      ("uncommitted_changes", PInt (Z.of_nat changes));
                      ("last_commit", PStr last_commit)])))%result
  else Ok None.

Definition get_git_info (w : World) (directory : path) : pyval :=
  match git_probe w directory with
  | Ok (Some info) => info
  | Ok None => no_git_repository
  | Raise _ => no_git_repository
  end.

(** *** The sections of a snapshot

    Each section is an empty [dict] that the body of a [try] fills key by
    key; when the body raises, what it has stored so far stays and the
    handler adds the key ["error"].  [Sec A] is a computation over the
    [dict] of the section. *)

Definition Sec (A : Type) : Type := pydict -> result A * pydict.

Definition sec_bind {A B : Type} (m : Sec A) (k : A -> Sec B) : Sec B :=
  fun d =>
    match m d with
    | (Ok a, d') => k a d'
    | (Raise e, d') => (Raise e, d')
    end.

Definition sec_call {A : Type} (r : result A) : Sec A := fun d => (r, d).

Definition sec_set (k : string) (v : pyval) : Sec unit :=
  fun d => (Ok tt, Dict.set k v d).

Declare Scope sec_scope.
Delimit Scope sec_scope with sec.
Notation "x <- m ;; k" := (sec_bind m (fun x => k))
  (at level 61, m at next level, right associativity) : sec_scope.
Notation "m ;;; k" := (sec_bind m (fun _ => k))
  (at level 61, right associativity) : sec_scope.

(** [try: body  except Exception as e: section["error"] = str(e)] *)
Definition try_section (body : Sec unit) : pydict :=
  match body [] with
  | (Ok _, d) => d
  | (Raise e, d) => Dict.set "error" (PStr e) d
  end.

Definition count_suffix (suffix : string) (names : list string) : Z :=
  Z.of_nat (length (filter (fun f => Str.endswith f suffix) names)).

Definition ios_body (w : World) : Sec unit :=
  (names <- sec_call (OS.listdir w IOS_DIR) ;;
   let ios_swift_count := count_suffix ".swift" names in
   sec_set "swift_files" (PInt ios_swift_count) ;;;
   sec_set "last_modified" (get_last_modified w IOS_DIR [".swift"]) ;;;
   sec_set "git_status" (get_git_info w IOS_DIR))%sec.

Definition android_body (w : World) : Sec unit :=
  (names_kt <- sec_call (OS.listdir w ANDROID_DIR) ;;
   let android_kt_count := count_suffix ".kt" names_kt in
   names_java <- sec_call (OS.listdir w ANDROID_DIR) ;;
   let android_java_count := count_suffix ".java" names_java in
   sec_set "kotlin_files" (PInt android_kt_count) ;;;
   sec_set "java_files" (PInt android_java_count) ;;;
   sec_set "last_modified"
     (get_last_modified w ANDROID_DIR [".kt"; ".java"]) ;;;
   sec_set "git_status" (get_git_info w ANDROID_DIR))%sec.

Definition count_claude (ps_out : string) : Z :=
  Z.of_nat (length (filter (fun line => Str.contains "claude" (Str.lower line))
                           (Str.split_nl ps_out))).

(** The tuple of [os.getloadavg()]; [json.dumps] writes it as an array. *)
Definition load_avg_value (la : Q * Q * Q) : pyval :=
  let '(a, b, c) := la in PTuple [PFloat a; PFloat b; PFloat c].

Definition system_body (w : World) : Sec unit :=
  (result <- sec_call (subprocess_run w ["ps"; "aux"]) ;;
   sec_set "claude_processes" (PInt (count_claude (stdout result))) ;;;
   la <- sec_call (os_getloadavg w) ;;
   sec_set "load_avg" (load_avg_value la))%sec.

Definition ios_section (w : World) : pydict := try_section (ios_body w).
Definition android_section (w : World) : pydict := try_section (android_body w).
Definition system_section (w : World) : pydict := try_section (system_body w).

(** *** [get_project_stats]

    The [dict] literal reads the clock and runs the log tailer before any
    [try] is entered, so an exception of the log tailer leaves the
    function. *)
Definition get_project_stats (w : World) : result pydict :=
  (terminal_logs <- get_terminal_logs w ;;
   Ok [("timestamp", PStr (now_iso w));
       ("ios", PDict (ios_section w));
       ("android", PDict (android_section w));
       ("system", PDict (system_section w));
       ("terminal_logs", PDict terminal_logs)])%result.

(** *** [DashboardHandler] *)

(** What is written to the client: the dashboard page, the text
    [json.dumps] makes of a document, or the page of [send_error]. *)
Inductive Body : Type :=
| DashboardPage
| Json (document : pyval)
| ErrorPage.

Record Response : Type := mkResponse {
  status : nat;
  content_type : string;
  body : Body
}.

Definition serve_dashboard : Response :=
  mkResponse 200 "text/html" DashboardPage.

Definition serve_stats (w : World) : result Response :=
  (stats <- get_project_stats w ;;
   Ok (mkResponse 200 "application/json" (Json (PDict stats))))%result.

Definition serve_logs : Response :=
  mkResponse 200 "application/json"
    (Json (PDict [("logs", PStr "Log functionality coming soon")])).

Definition serve_terminal_logs (w : World) : result Response :=
  (terminal_logs <- get_terminal_logs w ;;
   Ok (mkResponse 200 "application/json" (Json (PDict terminal_logs))))%result.

Definition do_GET (w : World) (request_path : string) : result Response :=
  if String.eqb request_path "/" then Ok serve_dashboard
  else if String.eqb request_path "/api/stats" then serve_stats w
  else if String.eqb request_path "/api/logs" then Ok serve_logs
  else if String.eqb request_path "/api/terminal" then serve_terminal_logs w
  else Ok (mkResponse 404 "text/html;charset=utf-8" ErrorPage).

(* ===================================================================== *)
(** ** Notions used to state the properties *)
(* ===================================================================== *)

(** What the tailer stores for one log file. *)
Definition log_entry (w : World) (log_file : string) : pyval :=
  match OS.readlines w (OS.path_join LOGS_DIR log_file) with
  | Ok lines => PList (map PStr (last_50 lines))
  | Raise e => PList [PStr ("Error reading log: " ++ e)]
  end.

(** A section (or a probe result) that is an ErrorNote: the one-key
    object [{"error": str}]. *)
Definition error_only (d : pydict) : Prop :=
  exists msg, d = [("error", PStr msg)].

Definition is_error_note (v : pyval) : Prop :=
  exists msg, v = PDict [("error", PStr msg)].

(** The fully populated sections. *)
Definition ios_populated (d : pydict) : Prop :=
  exists n last_modified git_status,
    d = [("swift_files", PInt n); ("last_modified", last_modified);
         ("git_status", git_status)].

Definition android_populated (d : pydict) : Prop :=
  exists k j last_modified git_status,
    d = [("kotlin_files", PInt k); ("java_files", PInt j);
         ("last_modified", last_modified); ("git_status", git_status)].

Definition system_populated (d : pydict) : Prop :=
  exists n a b c,
    d = [("claude_processes", PInt n);
         ("load_avg", PTuple [PFloat a; PFloat b; PFloat c])].

(** The configured projects. *)
Inductive project : Type := Ios | Android.




Definition project_section (w : World) (p : project) : pydict :=
  match p with Ios => ios_section w | Android => android_section w end.


(** The directory carries the version-control marker. *)
Definition has_marker (w : World) (directory : path) : Prop :=
  OS.path_exists w (OS.path_join directory ".git") = true.

(** The three sub-calls of the version-control prober all ran to an exit
    code. *)
Definition subcalls_ran (w : World) (directory : path)
  (r1 r2 r3 : CompletedProcess) : Prop :=
  subprocess_run w (git_branch_args directory) = Ok r1
  /\ subprocess_run w (git_status_args directory) = Ok r2
  /\ subprocess_run w (git_log_args directory) = Ok r3.

(** One of the sub-calls could not be started at all. *)
Definition subcall_raises (w : World) (directory : path) : Prop :=
  (exists e, subprocess_run w (git_branch_args directory) = Raise e)
  \/ (exists e, subprocess_run w (git_status_args directory) = Raise e)
  \/ (exists e, subprocess_run w (git_log_args directory) = Raise e).

Definition vcs_status (branch : pyval) (changes : pyval) (last_commit : pyval)
  : pyval :=
  PDict [("branch", branch); ("uncommitted_changes", changes);
         ("last_commit", last_commit)].

(** "A failing sub-call degrades its own field to a placeholder and leaves
    the other two fields alone", for given placeholders of the three
    fields. *)
Definition degrades_own_field (unknown_branch unknown_changes unknown_commit
  : pyval) : Prop :=
  forall w directory r1 r2 r3,
    has_marker w directory ->
    subcalls_ran w directory r1 r2 r3 ->
    let branch := PStr (Str.strip (stdout r1)) in
    let changes := PInt (Z.of_nat (count_changes (stdout r2))) in
    let last_commit := PStr (Str.strip (stdout r3)) in
    (returncode r1 <> 0%Z -> returncode r2 = 0%Z -> returncode r3 = 0%Z ->
     get_git_info w directory = vcs_status unknown_branch changes last_commit)
    /\ (returncode r1 = 0%Z -> returncode r2 <> 0%Z -> returncode r3 = 0%Z ->
        get_git_info w directory = vcs_status branch unknown_changes last_commit)
    /\ (returncode r1 = 0%Z -> returncode r2 = 0%Z -> returncode r3 <> 0%Z ->
        get_git_info w directory = vcs_status branch changes unknown_commit).

(** *** Lines of a status output *)

(** A blank text: white space only. *)
Fixpoint all_space (s : string) : bool :=
  match s with
  | EmptyString => true
  | String c s' => Str.is_space c && all_space s'
  end.

Fixpoint count_nl (s : string) : nat :=
  match s with
  | EmptyString => 0
  | String c s' => (if Ascii.eqb c Str.nl then 1 else 0) + count_nl s'
  end.

Definition head_blank (lines : list string) : bool :=
  match lines with
  | h :: _ => all_space h
  | [] => true
  end.

(** The number of lines that are not blank. *)
Definition nonblank (lines : list string) : nat :=
  length (filter (fun l => negb (all_space l)) lines).

Definition nonblank_lines (out : string) : nat :=
  nonblank (Str.split_nl out).

(** The number of lines that hold at least one character. *)
Definition nonempty_lines (out : string) : nat :=
  length (filter Str.truthy (Str.split_nl out)).

Fixpoint ends_nl (s : string) : bool :=
  match s with
  | EmptyString => false
  | String c EmptyString => Ascii.eqb c Str.nl
  | String _ s' => ends_nl s'
  end.

(** The blank lines left once the white space around the output is
    stripped: those between its first and its last non-blank line. *)
Definition interior_blank_lines (out : string) : nat :=
  if Str.truthy (Str.strip out)
  then length (filter all_space (Str.split_nl (Str.strip out)))
  else 0.

(** The text of [entries], one per line, each line ended by a newline. *)
Definition unlines (entries : list string) : string :=
  fold_right (fun e rest => e ++ String Str.nl rest) "" entries.

(** An entry of the status output of the tool: one line, not blank. *)
Definition status_entry (e : string) : Prop :=
  count_nl e = 0 /\ all_space e = false.



(** The field [k] of a document. *)
Definition field (k : string) (v : pyval) : option pyval :=
  match v with
  | PDict d => Dict.get k d
  | _ => None
  end.

(** The document a response carries, when it carries one. *)
Definition served_document (r : Response) : option pyval :=
  match body r with
  | Json v => Some v
  | _ => None
  end.

(** The logs portion of a served snapshot, in the words of the interface
    table: the [terminal_logs] part of the document of [/api/stats]. *)
Definition logs_portion_of_snapshot (r : Response) : option pyval :=
  match served_document r with
  | Some snapshot => field "terminal_logs" snapshot
  | None => None
  end.

(** A served snapshot without its [timestamp]. *)
Definition without_timestamp (snapshot : pydict) : pydict :=
  Dict.remove "timestamp" snapshot.

(** Two worlds that differ in the clock at most: the same file system, the
    same answers of the external tools, the same load average and the same
    local time zone. *)
Definition same_state (w1 w2 : World) : Prop :=
  fs_root w1 = fs_root w2
  /\ (forall args, subprocess_run w1 args = subprocess_run w2 args)
  /\ os_getloadavg w1 = os_getloadavg w2
  /\ (forall t, fromtimestamp_iso w1 t = fromtimestamp_iso w2 t).

(** *** Sample worlds *)

Module Sample.

(** A file system holding [entries] in the Flexport directory. *)
Definition flexport (entries : list (string * node)) : node :=
  Dir 1 [("Users", Dir 1 [("jfuginay", Dir 1 [("Documents",
    Dir 1 [("dev", Dir 1 [("Flexport", Dir 1 entries)])])])])].

(** A rendering of time stamps that, like [datetime], gives up from the
    year 10000 on. *)
Definition iso (t : Z) : result string :=
  if (253402300800 <=? t)%Z then Raise "year 10000 is out of range"
  else match t with
       | 0%Z => Ok "1970-01-01T00:00:00"
       | _ => Ok "2025-06-01T12:00:00"
       end.

Definition tool_missing (args : list string) : result CompletedProcess :=
  Raise ("[Errno 2] No such file or directory: '" ++ hd "" args ++ "'").

Definition load : result (Q * Q * Q) := Ok (3 # 2, 1 # 1, 1 # 2)%Q.

Definition lf : string := String Str.nl "".

(** A machine on which [git] and [ps] answer. *)
Definition tools (args : list string) : result CompletedProcess :=
  match args with
  | ["ps"; "aux"] =>
      Ok (mkCompleted 0 ("me 1 Claude --resume" ++ lf ++ "me 2 vim" ++ lf))
  | ["git"; "-C"; _; "branch"; "--show-current"] =>
      Ok (mkCompleted 0 ("main" ++ lf))
  | ["git"; "-C"; _; "status"; "--porcelain"] =>
      Ok (mkCompleted 0 (" M a.swift" ++ lf ++ "?? notes.txt" ++ lf))
  | ["git"; "-C"; _; "log"; "-1"; "--oneline"] =>
      Ok (mkCompleted 0 ("1a2b3c4 Initial commit" ++ lf))
  | _ => tool_missing args
  end.

Definition world (entries : list (string * node))
  (run : list string -> result CompletedProcess)
  (la : result (Q * Q * Q)) : World :=
  mkWorld "2025-06-01T12:00:00.000001" iso (flexport entries) run la.

(** Nothing of the project exists. *)
Definition bare : World := world [] tools load.

(** The same machine a little later. *)
Definition bare_later : World :=
  mkWorld "2025-06-01T12:00:30.000001" iso (flexport []) tools load.

(** A log directory with a five-line log, an empty log and a file that is
    not a log. *)
Definition logs_dir : node :=
  Dir 1 [("build.log", File 5 (Ok ["l1"; "l2"; "l3"; "l4"; "l5"]));
         ("empty.log", File 6 (Ok []));
         ("notes.txt", File 7 (Ok ["not a log"]))].

Definition with_logs : World := world [("terminal_logs", logs_dir)] tools load.

(** The same log directory next to an iOS project. *)
Definition with_logs_and_ios : World :=
  world [("FlexPort iOS", Dir 1 [("a.swift", File 10 (Ok []))]);
         ("terminal_logs", logs_dir)] tools load.

(** The machine of [with_logs_and_ios] a little later and under a higher
    load: nothing else has changed. *)
Definition with_logs_and_ios_busier : World :=
  mkWorld "2025-06-01T12:00:30.000001" iso
    (flexport [("FlexPort iOS", Dir 1 [("a.swift", File 10 (Ok []))]);
               ("terminal_logs", logs_dir)])
    tools (Ok (5 # 2, 3 # 2, 1 # 2)%Q).

(** Neither project directory exists and the log path is a regular
    file. *)
Definition logs_is_a_file : World :=
  world [("terminal_logs", File 3 (Ok ["not a directory"]))] tools load.

(** The process table answers; the load average cannot be obtained. *)
Definition no_load_average : World :=
  world [] tools (Raise "Load averages are unobtainable").

(** A [git] whose three sub-calls answer as given. *)
Definition git_answers (branch status log : CompletedProcess)
  (args : list string) : result CompletedProcess :=
  match args with
  | ["git"; "-C"; _; "branch"; "--show-current"] => Ok branch
  | ["git"; "-C"; _; "status"; "--porcelain"] => Ok status
  | ["git"; "-C"; _; "log"; "-1"; "--oneline"] => Ok log
  | _ => tool_missing args
  end.

Definition ios_repository : list (string * node) :=
  [("FlexPort iOS", Dir 1 [(".git", Dir 1 []); ("a.swift", File 10 (Ok []))])].

(** An iOS working copy on a machine without [git]. *)
Definition repository_without_git : World :=
  world ios_repository tool_missing load.

Definition on_main : CompletedProcess := mkCompleted 0 ("main" ++ lf).
Definition one_commit : CompletedProcess :=
  mkCompleted 0 ("1a2b3c4 Initial commit" ++ lf).

(** [git status] stopped with a non-zero exit code after it had written
    two entries, or before it had written any. *)
Definition status_cut_short : World :=
  world ios_repository
    (git_answers on_main
       (mkCompleted 1 (" M a.swift" ++ lf ++ "?? notes.txt" ++ lf))
       one_commit) load.

Definition status_failed_silent : World :=
  world ios_repository
    (git_answers on_main (mkCompleted 128 "") one_commit) load.

(** A fresh repository: [git log] fails, there is no commit yet. *)
Definition no_commit_yet : World :=
  world ios_repository
    (git_answers on_main (mkCompleted 0 "") (mkCompleted 128 "")) load.

(** An iOS working copy with two uncommitted changes. *)
Definition working_copy : World := world ios_repository tools load.

(** The iOS directory of the scenario: [a.swift], [b.swift] and
    [sub/c.swift], modified at the given times. *)
Definition scenario_entries (ta tb tc : Z) : list (string * node) :=
  [("a.swift", File ta (Ok ["import UIKit"]));
   ("b.swift", File tb (Ok []));
   ("sub", Dir tc [("c.swift", File tc (Ok []))])].

Definition scenario (ta tb tc : Z) : World :=
  world [("FlexPort iOS", Dir tc (scenario_entries ta tb tc))] tools load.


End Sample.

(* ===================================================================== *)
(** ** Further notions: routes, log names, well-formed file systems *)
(* ===================================================================== *)

(** The paths [do_GET] knows. *)
Definition routes : list string :=
  ["/"; "/api/stats"; "/api/logs"; "/api/terminal"].

(** The routes that run the log tailer. *)
Definition tailing_routes : list string := ["/api/stats"; "/api/terminal"].

Definition not_found : Response :=
  mkResponse 404 "text/html;charset=utf-8" ErrorPage.

(** The names the tailer keeps. *)
Definition is_log (name : string) : bool := Str.endswith name ".log".

(** A value that is a list of at most 50 strings. *)
Definition excerpt (v : pyval) : Prop :=
  exists lines, v = PList (map PStr lines) /\ length lines <= 50.

(** The log path exists and is a regular file. *)
Definition log_path_is_file (w : World) : Prop :=
  exists t c, OS.resolve w LOGS_DIR = Some (File t c).

(** The log path is a directory that the process may not read. *)
Definition log_path_is_denied (w : World) : Prop :=
  exists t, OS.resolve w LOGS_DIR = Some (Denied t).

(** The text begins, or ends, with a white-space character. *)
Definition starts_space (s : string) : bool :=
  match s with
  | EmptyString => false
  | String c _ => Str.is_space c
  end.

Fixpoint ends_space (s : string) : bool :=
  match s with
  | EmptyString => false
  | String c EmptyString => Str.is_space c
  | String _ s' => ends_space s'
  end.

(** Text without white space at either end. *)
Definition trimmed (s : string) : Prop :=
  starts_space s = false /\ ends_space s = false.

(** A file system as the operating system keeps it: no directory lists a
    name twice. *)
Fixpoint wf_node (n : node) : Prop :=
  match n with
  | Dir _ es =>
      NoDup (map fst es)
      /\ (fix children (l : list (string * node)) : Prop :=
            match l with
            | [] => True
            | (_, child) :: l' => wf_node child /\ children l'
            end) es
  | File _ _ => True
  | Denied _ => True
  | Broken => True
  end.

(** [any(file.endswith(ext) for ext in extensions)] *)
Definition matches (extensions : list string) (file : string) : bool :=
  existsb (fun ext => Str.endswith file ext) extensions.

(** One comparison of the search: a candidate replaces the latest file
    when it is strictly more recent. *)
Definition pick (st : latest) (candidate : path * Z) : latest :=
  if (fst st <? snd candidate)%Z
  then (snd candidate, Some (fst candidate))
  else st.

(** The candidates of the search in the tree below a node, in the order
    the walk meets them: the matching names that are not directories, each
    with the modification time [os.stat] finds for it (none for a link
    whose target is missing). *)
Definition files_here (extensions : list string) (root : path)
  (es : list (string * node)) : list (path * option Z) :=
  map (fun e => (OS.path_join root (fst e), node_mtime (snd e)))
      (filter (fun e => negb (is_dir (snd e)) && matches extensions (fst e))
              es).

Fixpoint tree_files (extensions : list string) (root : path) (n : node)
  : list (path * option Z) :=
  match n with
  | File _ _ => []
  | Denied _ => []
  | Broken => []
  | Dir _ es =>
      (files_here extensions root es
       ++ (fix subdirs (l : list (string * node)) :=
             match l with
             | [] => []
             | (name, child) :: l' =>
                 (tree_files extensions (OS.path_join root name) child
                  ++ subdirs l')%list
             end) es)%list
  end.

(** The comparisons of the search over a list of candidates: it stops
    with the error of [os.path.getmtime] at the first candidate that has no
    modification time. *)
Fixpoint search (st : latest) (candidates : list (path * option Z))
  : result latest :=
  match candidates with
  | [] => Ok st
  | (p, Some m) :: l => search (pick st (p, m)) l
  | (p, None) :: _ => Raise (OS.no_such_file p)
  end.

(** Every candidate has a modification time. *)
Definition all_dated (candidates : list (path * option Z)) : bool :=
  forallb (fun c => match snd c with Some _ => true | None => false end)
          candidates.

(** The candidates that have a modification time, with it. *)
Definition dated (candidates : list (path * option Z)) : list (path * Z) :=
  flat_map (fun c => match snd c with Some m => [(fst c, m)] | None => [] end)
           candidates.

(** [rel] is the path, relative to [directory], of a file modified at [m]
    whose name ends in one of the extensions. *)
Definition file_below (w : World) (directory : path)
  (extensions : list string) (rel : path) (m : Z) : Prop :=
  exists below name c,
    rel = (below ++ [name])%list
    /\ OS.resolve w (directory ++ rel)%list = Some (File m c)
    /\ matches extensions name = true.

(** [rel] is the path, relative to [directory], of a symbolic link whose
    target is missing and whose name ends in one of the extensions. *)
Definition link_below (w : World) (directory : path)
  (extensions : list string) (rel : path) : Prop :=
  exists below name,
    rel = (below ++ [name])%list
    /\ OS.resolve w (directory ++ rel)%list = Some Broken
    /\ matches extensions name = true.

(** What the search reports for the file at [rel], modified at [m]:
    nothing when [m] is outside the range of [datetime]. *)
Definition report (w : World) (directory : path) (rel : path) (m : Z)
  : pyval :=
  match fromtimestamp_iso w m with
  | Ok time => PDict [("file", PStr (Str.remove_all (path_str directory)
                                                    (path_str rel)));
                      ("time", PStr time)]
  | Raise _ => PNone
  end.

(** Two worlds that agree on everything a snapshot reads but the answer of
    [ps aux] and the load average. *)
Definition agree_but_system (w1 w2 : World) : Prop :=
  fs_root w1 = fs_root w2
  /\ (forall args, args <> ["ps"; "aux"] ->
                   subprocess_run w1 args = subprocess_run w2 args)
  /\ (forall t, fromtimestamp_iso w1 t = fromtimestamp_iso w2 t).

(** The lines of a [ps] output that mention claude, in any letter case. *)
Definition claude_lines (ps_out : string) : nat :=
  length (filter (fun line => Str.contains "claude" (Str.lower line))
                 (Str.split_nl ps_out)).

(** *** Sample worlds for the properties below *)

Module Fixture.

(** A log directory with a readable log, a log that cannot be decoded, a
    directory whose name ends in [.log] and a file that is not a log. *)
Definition logs_dir : node :=
  Dir 1 [("notes.txt", File 2 (Ok ["not a log"]));
         ("build.log", File 5 (Ok ["l1"; "l2"]));
         ("binary.log",
          File 6 (Raise "'utf-8' codec can't decode byte 0xff in position 0: invalid start byte"));
         ("old.log", Dir 7 [])].

Definition with_logs : World :=
  Sample.world [("terminal_logs", logs_dir)] Sample.tools Sample.load.

(** An iOS working copy on a detached HEAD: [git branch --show-current]
    succeeds and prints nothing. *)
Definition detached_head : World :=
  Sample.world Sample.ios_repository
    (Sample.git_answers (mkCompleted 0 "")
       (mkCompleted 0 "")
       (mkCompleted 0 ("  1a2b3c4 Initial commit " ++ Sample.lf)))
    Sample.load.

(** A machine on which [ps] cannot be started, [git] answering as in
    [Sample.tools]. *)
Definition tools_without_ps (args : list string) : result CompletedProcess :=
  if list_eq_dec string_dec args ["ps"; "aux"]
  then Sample.tool_missing args
  else Sample.tools args.

Definition without_ps : World :=
  Sample.world [("FlexPort iOS", Dir 1 [("a.swift", File 10 (Ok []))]);
                ("terminal_logs", logs_dir)] tools_without_ps Sample.load.

(** The same machine with [ps]. *)
Definition with_ps : World :=
  Sample.world [("FlexPort iOS", Dir 1 [("a.swift", File 10 (Ok []))]);
                ("terminal_logs", logs_dir)] Sample.tools Sample.load.

(** The log path is a directory that may not be read. *)
Definition logs_denied : World :=
  Sample.world [("terminal_logs", Denied 3)] Sample.tools Sample.load.

(** An iOS project with a source file and, in a subdirectory, a link whose
    target is gone. *)
Definition dangling_link : World :=
  Sample.world
    [("FlexPort iOS",
      Dir 1 [("a.swift", File 10 (Ok []));
             ("sub", Dir 1 [("gone.swift", Broken)])])]
    Sample.tools Sample.load.

(** An iOS project whose latest source file carries a modification time
    beyond the year 9999. *)
Definition far_future : World :=
  Sample.world
    [("FlexPort iOS",
      Dir 1 [("a.swift", File 10 (Ok []));
             ("b.swift", File 1000000000000 (Ok []))])]
    Sample.tools Sample.load.

(** A project whose own path text occurs again below it. *)
Definition nested_twice : World :=
  Sample.world
    [("FlexPort iOS",
      Dir 1 [("Users", Dir 1 [("jfuginay", Dir 1 [("Documents",
        Dir 1 [("dev", Dir 1 [("Flexport", Dir 1 [("FlexPort iOS",
          Dir 1 [("deep.swift", File 50 (Ok []))])])])])])])])]
    Sample.tools Sample.load.

End Fixture.
(* ===================================================================== *)
(** ** The string functions on small inputs *)
(* ===================================================================== *)

Example strip_status_line :
  Str.strip (" M a.swift" ++ String Str.nl "") = "M a.swift".
Proof. reflexivity. Qed.

Example strip_blank : Str.strip ("  " ++ String Str.nl " ") = "".
Proof. reflexivity. Qed.

Example split_keeps_empty_pieces :
  Str.split_nl ("a" ++ String Str.nl (String Str.nl "b")) = ["a"; ""; "b"].
Proof. reflexivity. Qed.

Example split_empty : Str.split_nl "" = [""].
Proof. reflexivity. Qed.

Example endswith_swift :
  Str.endswith "a.swift" ".swift" = true
  /\ Str.endswith "swift" ".swift" = false
  /\ Str.endswith "a.swift.bak" ".swift" = false.
Proof. repeat split; reflexivity. Qed.

Example remove_all_occurrences :
  Str.remove_all "ab" "xabyababz" = "xyz" /\ Str.remove_all "aa" "aaa" = "a".
Proof. split; reflexivity. Qed.

Example contains_claude :
  Str.contains "claude" (Str.lower "me 1 Claude --resume") = true
  /\ Str.contains "claude" (Str.lower "me 2 vim") = false.
Proof. split; reflexivity. Qed.

Example relative_path_of_latest_file :
  Str.remove_all (path_str IOS_DIR)
    (path_str (OS.path_join (OS.path_join IOS_DIR "sub") "c.swift"))
  = "/sub/c.swift".
Proof. reflexivity. Qed.

Example last_50_of_60 :
  last_50 (seq 1 60) = seq 11 50 /\ last_50 (seq 1 5) = seq 1 5.
Proof. split; reflexivity. Qed.

(* ===================================================================== *)
(** ** Dictionaries and paths: basic facts *)
(* ===================================================================== *)

Section DictFacts.

Context {V : Type}.
Implicit Types (d : list (string * V)) (k : string) (v : V).

Lemma get_set_same k v d : Dict.get k (Dict.set k v d) = Some v.
Proof.
  induction d as [|[k' v'] d IH]; simpl.
  - now rewrite String.eqb_refl.
  - destruct (String.eqb k k') eqn:E; simpl.
    + now rewrite String.eqb_refl.
    + now rewrite E.
Qed.

Lemma get_set_other k k' v d :
  k <> k' -> Dict.get k (Dict.set k' v d) = Dict.get k d.
Proof.
  intros Hne. induction d as [|[k0 v0] d IH]; simpl.
  - apply String.eqb_neq in Hne. now rewrite Hne.
  - destruct (String.eqb k' k0) eqn:E; simpl.
    + apply String.eqb_eq in E. subst k0.
      apply String.eqb_neq in Hne. now rewrite Hne.
    + now rewrite IH.
Qed.

Lemma get_remove_other k k' d :
  k <> k' -> Dict.get k (Dict.remove k' d) = Dict.get k d.
Proof.
  intros Hne. induction d as [|[k0 v0] d IH]; simpl; [reflexivity|].
  destruct (String.eqb k' k0) eqn:E; simpl.
  - apply String.eqb_eq in E. subst k0.
    apply String.eqb_neq in Hne. now rewrite Hne.
  - now rewrite IH.
Qed.

End DictFacts.

Lemma resolve_from_app (n : node) (p q : path) :
  resolve_from n (p ++ q)%list =
  match resolve_from n p with
  | Some n' => resolve_from n' q
  | None => None
  end.
Proof.
  revert n. induction p as [|c p IH]; intros n; simpl; [reflexivity|].
  destruct n as [t c0|t es|t|]; try reflexivity.
  destruct (Dict.get c es) as [n'|]; [apply IH|reflexivity].
Qed.

Lemma resolve_join (w : World) (dir : path) (name : string) :
  OS.resolve w (OS.path_join dir name) =
  match OS.resolve w dir with
  | Some n => resolve_from n [name]
  | None => None
  end.
Proof. unfold OS.resolve, OS.path_join. apply resolve_from_app. Qed.

(* ===================================================================== *)
(** ** The log tailer *)
(* ===================================================================== *)

Lemma tail_log_spec (w : World) (logs : pydict) (log_file : string) :
  tail_log w logs log_file =
  if Str.endswith log_file ".log"
  then Dict.set log_file (log_entry w log_file) logs
  else logs.
Proof.
  unfold tail_log, log_entry.
  destruct (Str.endswith log_file ".log"); [|reflexivity].
  now destruct (OS.readlines w (OS.path_join LOGS_DIR log_file)).
Qed.

Lemma tail_logs_untouched (w : World) (names : list string) (logs : pydict)
  (k : string) :
  ~ In k names ->
  Dict.get k (fold_left (tail_log w) names logs) = Dict.get k logs.
Proof.
  revert logs. induction names as [|a names IH]; intros logs Hk; simpl.
  - reflexivity.
  - rewrite IH by (intros H; apply Hk; now right).
    rewrite tail_log_spec.
    destruct (Str.endswith a ".log"); [|reflexivity].
    apply get_set_other. intros ->. apply Hk. now left.
Qed.

Lemma tail_logs_entry (w : World) (names : list string) (logs : pydict)
  (k : string) :
  In k names -> Str.endswith k ".log" = true ->
  Dict.get k (fold_left (tail_log w) names logs) = Some (log_entry w k).
Proof.
  revert logs. induction names as [|a names IH]; intros logs Hin Hlog; simpl.
  - destruct Hin.
  - destruct (in_dec string_dec k names) as [Hlater|Hlast].
    + now apply IH.
    + destruct Hin as [->|Hin]; [|contradiction].
      rewrite tail_logs_untouched by assumption.
      rewrite tail_log_spec, Hlog. apply get_set_same.
Qed.

Lemma last_50_length {A : Type} (lines : list A) : length (last_50 lines) <= 50.
Proof.
  unfold last_50. destruct (Nat.ltb_spec 50 (length lines)).
  - rewrite length_skipn. lia.
  - assumption.
Qed.

Lemma log_entry_bounded (w : World) (log_file : string) :
  exists lines, log_entry w log_file = PList (map PStr lines)
                /\ length lines <= 50.
Proof.
  unfold log_entry.
  destruct (OS.readlines w (OS.path_join LOGS_DIR log_file)) as [ls|e].
  - exists (last_50 ls). split; [reflexivity|apply last_50_length].
  - exists ["Error reading log: " ++ e]. split; [reflexivity|simpl; lia].
Qed.

(** The tailer reads nothing but the log directory. *)
Lemma get_terminal_logs_local (w1 w2 : World) :
  OS.resolve w1 LOGS_DIR = OS.resolve w2 LOGS_DIR ->
  get_terminal_logs w1 = get_terminal_logs w2.
Proof.
  intros H. unfold get_terminal_logs, OS.path_exists, OS.listdir.
  rewrite <- H. destruct (OS.resolve w1 LOGS_DIR) as [[t c|t es|t|]|] eqn:E;
    try reflexivity.
  simpl. f_equal.
  assert (Hstep : forall logs name,
             tail_log w1 logs name = tail_log w2 logs name).
  { intros logs name. unfold tail_log, OS.readlines.
    rewrite !resolve_join, <- H, E. reflexivity. }
  generalize (@nil (string * pyval)).
  induction (map fst es) as [|a l IH]; intros logs; simpl; [reflexivity|].
  now rewrite Hstep, IH.
Qed.

Lemma last_50_skipn {A : Type} (lines : list A) :
  last_50 lines = skipn (length lines - 50) lines.
Proof.
  unfold last_50. destruct (Nat.ltb_spec 50 (length lines)) as [H|H].
  - reflexivity.
  - replace (length lines - 50) with 0 by lia. reflexivity.
Qed.

Lemma map_PStr_inj (l1 l2 : list string) :
  map PStr l1 = map PStr l2 -> l1 = l2.
Proof.
  revert l2. induction l1 as [|x xs IH]; intros [|y ys] H; simpl in H;
    try discriminate; [reflexivity|].
  injection H as -> H. f_equal. now apply IH.
Qed.

(** C2.  For every file of the log directory whose name ends in [.log], the
    mapping the Log Tailer returns has an entry of at most 50 lines; when
    the file can be read the entry is exactly its final 50 lines (all of
    them when there are fewer), and a file of 0 lines gets the empty
    sequence as its entry. *)
Theorem log_tailer_keeps_last_50
  (w : World) (t : Z) (es : list (string * node)) (log_file : string) :
  OS.resolve w LOGS_DIR = Some (Dir t es) ->
  In log_file (map fst es) ->
  Str.endswith log_file ".log" = true ->
  exists logs lines,
    get_terminal_logs w = Ok logs
    /\ Dict.get log_file logs = Some (PList (map PStr lines))
    /\ length lines <= 50
    /\ forall all_lines,
         OS.readlines w (OS.path_join LOGS_DIR log_file) = Ok all_lines ->
         lines = skipn (length all_lines - 50) all_lines
         /\ (all_lines = [] -> Dict.get log_file logs = Some (PList []))%list.
Proof.
  intros Hdir Hin Hlog.
  destruct (log_entry_bounded w log_file) as (lines & Hentry & Hlen).
  exists (fold_left (tail_log w) (map fst es) []), lines.
  split; [|split; [|split]].
  - unfold get_terminal_logs, OS.path_exists, OS.listdir. now rewrite Hdir.
  - rewrite <- Hentry. now apply tail_logs_entry.
  - exact Hlen.
  - intros all_lines Hread. unfold log_entry in Hentry.
    rewrite Hread in Hentry. injection Hentry as Hentry.
    assert (Hlines : lines = last_50 all_lines).
    { symmetry. now apply map_PStr_inj. }
    split.
    + now rewrite Hlines, last_50_skipn.
    + intros ->. rewrite (tail_logs_entry w _ _ _ Hin Hlog).
      unfold log_entry. now rewrite Hread.
Qed.

Lemma log_tailer_keeps_last_50_witness :
  exists logs lines,
    get_terminal_logs Sample.with_logs = Ok logs
    /\ Dict.get "empty.log" logs = Some (PList (map PStr lines))
    /\ length lines <= 50
    /\ forall all_lines,
         OS.readlines Sample.with_logs (OS.path_join LOGS_DIR "empty.log")
           = Ok all_lines ->
         lines = skipn (length all_lines - 50) all_lines
         /\ (all_lines = [] -> Dict.get "empty.log" logs = Some (PList []))%list.
Proof.
  apply (log_tailer_keeps_last_50 Sample.with_logs 1
           [("build.log", File 5 (Ok ["l1"; "l2"; "l3"; "l4"; "l5"]));
            ("empty.log", File 6 (Ok []));
            ("notes.txt", File 7 (Ok ["not a log"]))] "empty.log").
  - reflexivity.
  - simpl. right. left. reflexivity.
  - reflexivity.
Defined.

(** C10.  When the log directory does not exist the Log Tailer returns the
    empty mapping: no exception leaves it, the snapshot is built with
    [terminal_logs] = [{}], and [/api/terminal] answers 200 with [{}]. *)
Theorem missing_log_directory_gives_empty_mapping (w : World) :
  OS.path_exists w LOGS_DIR = false ->
  get_terminal_logs w = Ok []
  /\ (exists snapshot, get_project_stats w = Ok snapshot
        /\ Dict.get "terminal_logs" snapshot = Some (PDict []))
  /\ do_GET w "/api/terminal"
     = Ok (mkResponse 200 "application/json" (Json (PDict []))).
Proof.
  intros H.
  assert (Hlogs : get_terminal_logs w = Ok []).
  { unfold get_terminal_logs. now rewrite H. }
  split; [exact Hlogs|split].
  - unfold get_project_stats. rewrite Hlogs. simpl.
    eexists. split; reflexivity.
  - unfold do_GET, serve_terminal_logs. simpl. now rewrite Hlogs.
Qed.

Lemma missing_log_directory_gives_empty_mapping_witness :
  get_terminal_logs Sample.bare = Ok []
  /\ (exists snapshot, get_project_stats Sample.bare = Ok snapshot
        /\ Dict.get "terminal_logs" snapshot = Some (PDict []))
  /\ do_GET Sample.bare "/api/terminal"
     = Ok (mkResponse 200 "application/json" (Json (PDict []))).
Proof.
  apply (missing_log_directory_gives_empty_mapping Sample.bare).
  reflexivity.
Defined.

(** C9.  Over one state of the log directory, the document [/api/terminal]
    serves is the [terminal_logs] field of the snapshot [/api/stats] serves:
    both are the mapping of one run of the Log Tailer (and when the tailer
    raises, both requests end in that same exception). *)
Theorem terminal_route_serves_logs_portion (w1 w2 : World) :
  OS.resolve w1 LOGS_DIR = OS.resolve w2 LOGS_DIR ->
  rmap served_document (do_GET w1 "/api/terminal")
  = rmap logs_portion_of_snapshot (do_GET w2 "/api/stats")
  /\ rmap served_document (do_GET w1 "/api/terminal")
     = rmap (fun logs => Some (PDict logs)) (get_terminal_logs w1).
Proof.
  intros H. apply get_terminal_logs_local in H.
  unfold do_GET, serve_terminal_logs, serve_stats, get_project_stats. simpl.
  rewrite <- H. destruct (get_terminal_logs w1) as [logs|e]; split; reflexivity.
Qed.

Lemma terminal_route_serves_logs_portion_witness :
  rmap served_document (do_GET Sample.with_logs "/api/terminal")
  = rmap logs_portion_of_snapshot (do_GET Sample.with_logs_and_ios "/api/stats")
  /\ rmap served_document (do_GET Sample.with_logs "/api/terminal")
     = rmap (fun logs => Some (PDict logs)) (get_terminal_logs Sample.with_logs).
Proof.
  apply (terminal_route_serves_logs_portion
           Sample.with_logs Sample.with_logs_and_ios).
  reflexivity.
Defined.

(* ===================================================================== *)
(** ** The snapshot is a function of the state it reads *)
(* ===================================================================== *)

Lemma for_each_ext {S A : Type} (f g : S -> A -> result S) (l : list A) (s : S) :
  (forall s a, f s a = g s a) -> for_each f l s = for_each g l s.
Proof.
  intros H. revert s. induction l as [|a l IH]; intros s; simpl.
  - reflexivity.
  - rewrite H. destruct (g s a); simpl; [apply IH|reflexivity].
Qed.

Section SameState.

Variables w1 w2 : World.
Hypothesis Hsame : same_state w1 w2.

Lemma same_resolve (p : path) : OS.resolve w1 p = OS.resolve w2 p.
Proof. unfold OS.resolve. destruct Hsame as [-> _]. reflexivity. Qed.

Lemma same_listdir (p : path) : OS.listdir w1 p = OS.listdir w2 p.
Proof. unfold OS.listdir. now rewrite same_resolve. Qed.

Lemma same_getmtime (p : path) : OS.getmtime w1 p = OS.getmtime w2 p.
Proof. unfold OS.getmtime. now rewrite same_resolve. Qed.

Lemma same_exists (p : path) : OS.path_exists w1 p = OS.path_exists w2 p.
Proof. unfold OS.path_exists. now rewrite same_resolve. Qed.

Lemma same_walk (p : path) : OS.walk w1 p = OS.walk w2 p.
Proof. unfold OS.walk. now rewrite same_resolve. Qed.

Lemma same_scan_tree (directory : path) (extensions : list string) :
  scan_tree w1 directory extensions = scan_tree w2 directory extensions.
Proof.
  unfold scan_tree. rewrite same_walk. apply for_each_ext.
  intros st [[root dirs] files]. unfold scan_dir. apply for_each_ext.
  intros st' file. unfold scan_file. now rewrite same_getmtime.
Qed.

Lemma same_last_modified (directory : path) (extensions : list string) :
  get_last_modified w1 directory extensions
  = get_last_modified w2 directory extensions.
Proof.
  unfold get_last_modified. rewrite same_scan_tree.
  destruct Hsame as (_ & _ & _ & Hiso).
  destruct (scan_tree w2 directory extensions) as [[t [f|]]|e];
    try reflexivity.
  now rewrite Hiso.
Qed.

Lemma same_git_info (directory : path) :
  get_git_info w1 directory = get_git_info w2 directory.
Proof.
  unfold get_git_info, git_probe. rewrite same_exists.
  destruct Hsame as (_ & Hrun & _).
  now rewrite !Hrun.
Qed.

Lemma same_ios_section : ios_section w1 = ios_section w2.
Proof.
  unfold ios_section, ios_body. now rewrite same_listdir,
    same_last_modified, same_git_info.
Qed.

Lemma same_android_section : android_section w1 = android_section w2.
Proof.
  unfold android_section, android_body. now rewrite same_listdir,
    same_last_modified, same_git_info.
Qed.

Lemma same_system_section : system_section w1 = system_section w2.
Proof.
  unfold system_section, system_body.
  destruct Hsame as (_ & Hrun & Hload & _).
  now rewrite Hrun, Hload.
Qed.

Lemma same_terminal_logs : get_terminal_logs w1 = get_terminal_logs w2.
Proof. apply get_terminal_logs_local, same_resolve. Qed.

End SameState.

Lemma do_GET_stats (w : World) :
  do_GET w "/api/stats"
  = rmap (fun snapshot =>
            mkResponse 200 "application/json" (Json (PDict snapshot)))
         (get_project_stats w).
Proof. reflexivity. Qed.

(** C7 (as the code has it).  Two aggregations for [/api/stats] over the
    same file system (the log directory included), the same answers of the
    version-control tool and of the process table, and the same load
    average, the process keeping its time zone, give the same snapshot up
    to [timestamp]: the first is the second with its [timestamp]
    overwritten, so every other field of the two served documents is
    equal. *)
Theorem stats_identical_except_timestamp (w1 w2 : World) :
  same_state w1 w2 ->
  get_project_stats w1
  = rmap (Dict.set "timestamp" (PStr (now_iso w1))) (get_project_stats w2)
  /\ rmap without_timestamp (get_project_stats w1)
     = rmap without_timestamp (get_project_stats w2)
  /\ (do_GET w1 "/api/stats" =
      rmap (fun snapshot =>
              mkResponse 200 "application/json" (Json (PDict snapshot)))
           (get_project_stats w1))
  /\ (do_GET w2 "/api/stats" =
      rmap (fun snapshot =>
              mkResponse 200 "application/json" (Json (PDict snapshot)))
           (get_project_stats w2)).
Proof.
  intros H. split; [|split; [|split; apply do_GET_stats]];
    unfold get_project_stats;
    rewrite (same_terminal_logs w1 w2 H), (same_ios_section w1 w2 H),
      (same_android_section w1 w2 H), (same_system_section w1 w2 H);
    destruct (get_terminal_logs w2) as [logs|e]; reflexivity.
Qed.

Lemma stats_identical_except_timestamp_witness :
  get_project_stats Sample.bare
  = rmap (Dict.set "timestamp" (PStr (now_iso Sample.bare)))
         (get_project_stats Sample.bare_later)
  /\ rmap without_timestamp (get_project_stats Sample.bare)
     = rmap without_timestamp (get_project_stats Sample.bare_later)
  /\ (do_GET Sample.bare "/api/stats" =
      rmap (fun snapshot =>
              mkResponse 200 "application/json" (Json (PDict snapshot)))
           (get_project_stats Sample.bare))
  /\ (do_GET Sample.bare_later "/api/stats" =
      rmap (fun snapshot =>
              mkResponse 200 "application/json" (Json (PDict snapshot)))
           (get_project_stats Sample.bare_later)).
Proof.
  apply (stats_identical_except_timestamp Sample.bare Sample.bare_later).
  repeat split; reflexivity.
Defined.

(** C7, refuted as stated: two aggregations over the same file system
    (the log directory included) and the same answers of the
    version-control tool and of the process table.  The load average has
    moved in between, and the two served snapshots differ in
    [system.load_avg], a field other than [timestamp]. *)
Lemma load_average_changes_snapshot :
  fs_root Sample.with_logs_and_ios = fs_root Sample.with_logs_and_ios_busier
  /\ (forall args,
        subprocess_run Sample.with_logs_and_ios args
        = subprocess_run Sample.with_logs_and_ios_busier args)
  /\ (forall t,
        fromtimestamp_iso Sample.with_logs_and_ios t
        = fromtimestamp_iso Sample.with_logs_and_ios_busier t)
  /\ exists s1 s2,
       do_GET Sample.with_logs_and_ios "/api/stats"
       = Ok (mkResponse 200 "application/json" (Json (PDict s1)))
       /\ do_GET Sample.with_logs_and_ios_busier "/api/stats"
          = Ok (mkResponse 200 "application/json" (Json (PDict s2)))
       /\ get_project_stats Sample.with_logs_and_ios = Ok s1
       /\ get_project_stats Sample.with_logs_and_ios_busier = Ok s2
       /\ Dict.get "system" s1
          = Some (PDict [("claude_processes", PInt 1);
                         ("load_avg", PTuple [PFloat (3 # 2); PFloat (1 # 1);
                                              PFloat (1 # 2)])])
       /\ Dict.get "system" s2
          = Some (PDict [("claude_processes", PInt 1);
                         ("load_avg", PTuple [PFloat (5 # 2); PFloat (3 # 2);
                                              PFloat (1 # 2)])])
       /\ without_timestamp s1 <> without_timestamp s2.
Proof.
  split; [reflexivity|]. split; [reflexivity|]. split; [reflexivity|].
  eexists _, _. split; [reflexivity|]. split; [reflexivity|].
  split; [reflexivity|]. split; [reflexivity|].
  split; [reflexivity|]. split; [reflexivity|].
  intros H. vm_compute in H. discriminate H.
Qed.

(* ===================================================================== *)
(** ** The sections of a snapshot *)
(* ===================================================================== *)

Lemma ios_section_cases (w : World) :
  ios_section w =
  match OS.listdir w IOS_DIR with
  | Ok names =>
      [("swift_files", PInt (count_suffix ".swift" names));
       ("last_modified", get_last_modified w IOS_DIR [".swift"]);
       ("git_status", get_git_info w IOS_DIR)]
  | Raise e => [("error", PStr e)]
  end.
Proof.
  unfold ios_section, ios_body, try_section, sec_bind, sec_call, sec_set.
  destruct (OS.listdir w IOS_DIR); reflexivity.
Qed.

Lemma android_section_cases (w : World) :
  android_section w =
  match OS.listdir w ANDROID_DIR with
  | Ok names =>
      [("kotlin_files", PInt (count_suffix ".kt" names));
       ("java_files", PInt (count_suffix ".java" names));
       ("last_modified", get_last_modified w ANDROID_DIR [".kt"; ".java"]);
       ("git_status", get_git_info w ANDROID_DIR)]
  | Raise e => [("error", PStr e)]
  end.
Proof.
  unfold android_section, android_body, try_section, sec_bind, sec_call,
    sec_set.
  destruct (OS.listdir w ANDROID_DIR); reflexivity.
Qed.

Lemma system_section_cases (w : World) :
  system_section w =
  match subprocess_run w ["ps"; "aux"], os_getloadavg w with
  | Raise e, _ => [("error", PStr e)]
  | Ok result, Ok la =>
      [("claude_processes", PInt (count_claude (stdout result)));
       ("load_avg", load_avg_value la)]
  | Ok result, Raise e =>
      [("claude_processes", PInt (count_claude (stdout result)));
       ("error", PStr e)]
  end.
Proof.
  unfold system_section, system_body, try_section, sec_bind, sec_call,
    sec_set.
  destruct (subprocess_run w ["ps"; "aux"]); [|reflexivity].
  destruct (os_getloadavg w); reflexivity.
Qed.

Lemma ios_section_shape (w : World) :
  ios_populated (ios_section w) \/ error_only (ios_section w).
Proof.
  rewrite ios_section_cases. destruct (OS.listdir w IOS_DIR) as [names|e].
  - left. now eexists _, _, _.
  - right. now exists e.
Qed.

Lemma android_section_shape (w : World) :
  android_populated (android_section w) \/ error_only (android_section w).
Proof.
  rewrite android_section_cases.
  destruct (OS.listdir w ANDROID_DIR) as [names|e].
  - left. now eexists _, _, _, _.
  - right. now exists e.
Qed.




(** C8 (as the code has it).  In every snapshot that is served, the
    sections [ios] and [android] are each either fully populated or exactly
    [{"error": str}].  The [system] section is fully populated when both of
    its queries answer and exactly [{"error": str}] when the process-table
    query raises; when the process table answers and the load-average query
    raises, the section holds the process count stored before the failure
    together with ["error"]. *)
Theorem sections_populated_or_error (w : World) (snapshot : pydict) :
  get_project_stats w = Ok snapshot ->
  exists ios android system,
    Dict.get "ios" snapshot = Some (PDict ios)
    /\ Dict.get "android" snapshot = Some (PDict android)
    /\ Dict.get "system" snapshot = Some (PDict system)
    /\ (ios_populated ios \/ error_only ios)
    /\ (android_populated android \/ error_only android)
    /\ match subprocess_run w ["ps"; "aux"], os_getloadavg w with
       | Raise e, _ => system = [("error", PStr e)]
       | Ok result, Ok la => system_populated system
       | Ok result, Raise e =>
           system = [("claude_processes", PInt (count_claude (stdout result)));
                     ("error", PStr e)]
       end.
Proof.
  unfold get_project_stats. intros H.
  destruct (get_terminal_logs w) as [logs|e]; [|discriminate].
  simpl in H. injection H as <-.
  exists (ios_section w), (android_section w), (system_section w).
  repeat split; try reflexivity.
  - apply ios_section_shape.
  - apply android_section_shape.
  - rewrite system_section_cases.
    destruct (subprocess_run w ["ps"; "aux"]) as [result|e]; [|reflexivity].
    destruct (os_getloadavg w) as [[[a b] c]|e]; [|reflexivity].
    now eexists _, a, b, c.
Qed.

Lemma sections_populated_or_error_witness :
  exists snapshot ios android system,
    get_project_stats Sample.with_logs_and_ios = Ok snapshot
    /\ Dict.get "ios" snapshot = Some (PDict ios)
    /\ Dict.get "android" snapshot = Some (PDict android)
    /\ Dict.get "system" snapshot = Some (PDict system)
    /\ ios_populated ios
    /\ error_only android
    /\ system_populated system.
Proof.
  destruct (sections_populated_or_error Sample.with_logs_and_ios _ eq_refl)
    as (ios & android & system & Hi & Ha & Hs & Hios & Handroid & Hsystem).
  eexists. exists ios, android, system.
  split; [reflexivity|]. split; [exact Hi|]. split; [exact Ha|].
  split; [exact Hs|].
  injection Hi as <-. injection Ha as <-.
  split; [|split].
  - destruct Hios as [H|[msg H]]; [exact H|discriminate].
  - destruct Handroid as [(k & j & l & g & H)|H]; [discriminate|exact H].
  - exact Hsystem.
Defined.

(** C8, refuted as stated: with the process table answering and the load
    average unobtainable, the [system] section of the served snapshot
    carries a data field and an error field at once. *)
Lemma system_section_data_and_error :
  exists snapshot,
    get_project_stats Sample.no_load_average = Ok snapshot
    /\ do_GET Sample.no_load_average "/api/stats"
       = Ok (mkResponse 200 "application/json" (Json (PDict snapshot)))
    /\ Dict.get "system" snapshot
       = Some (PDict [("claude_processes", PInt 1);
                      ("error", PStr "Load averages are unobtainable")])
    /\ ~ (system_populated
            [("claude_processes", PInt 1);
             ("error", PStr "Load averages are unobtainable")]
          \/ error_only
               [("claude_processes", PInt 1);
                ("error", PStr "Load averages are unobtainable")]).
Proof.
  eexists. split; [reflexivity|]. split; [reflexivity|].
  split; [reflexivity|].
  intros [(n & a & b & c & H)|(msg & H)]; discriminate.
Qed.

(* ===================================================================== *)
(** ** What each probe reads *)
(* ===================================================================== *)

(** Induction on a node and on the entries of a directory together. *)
Fixpoint node_entries_ind (P : node -> Prop) (Q : list (string * node) -> Prop)
  (HFile : forall t c, P (File t c))
  (HDir : forall t es, Q es -> P (Dir t es))
  (HDenied : forall t, P (Denied t))
  (HBroken : P Broken)
  (Hnil : Q [])
  (Hcons : forall name n es, P n -> Q es -> Q ((name, n) :: es))
  (n : node) : P n :=
  match n with
  | File t c => HFile t c
  | Denied t => HDenied t
  | Broken => HBroken
  | Dir t es =>
      HDir t es
        ((fix entries (l : list (string * node)) : Q l :=
            match l with
            | [] => Hnil
            | (name, child) :: l' =>
                Hcons name child l'
                  (node_entries_ind P Q HFile HDir HDenied HBroken Hnil Hcons
                     child)
                  (entries l')
            end) es)
  end.

(** Every directory [os.walk] visits lies below its top. *)
Lemma walk_node_below (n : node) :
  forall top triple,
    In triple (OS.walk_node top n) ->
    exists below, fst (fst triple) = (top ++ below)%list.
Proof.
  apply (node_entries_ind
           (fun n => forall top triple,
                In triple (OS.walk_node top n) ->
                exists below, fst (fst triple) = (top ++ below)%list)
           (fun es => forall top triple,
                In triple
                  ((fix subdirs (l : list (string * node)) :=
                      match l with
                      | [] => []
                      | (name, child) :: l' =>
                          (OS.walk_node (OS.path_join top name) child
                             ++ subdirs l')%list
                      end) es) ->
                exists below, fst (fst triple) = (top ++ below)%list)).
  - intros t c top triple [].
  - intros t es IH top triple [<-|Hin].
    + exists []. simpl. now rewrite app_nil_r.
    + now apply IH.
  - intros t top triple [].
  - intros top triple [].
  - intros top triple [].
  - intros name child es IHn IHes top triple Hin.
    apply in_app_or in Hin as [Hin|Hin].
    + destruct (IHn _ _ Hin) as [below Hb].
      exists (name :: below). rewrite Hb. unfold OS.path_join.
      now rewrite <- app_assoc.
    + now apply IHes.
Qed.

Lemma for_each_ext_in {S A : Type} (f g : S -> A -> result S) (l : list A)
  (s : S) :
  (forall a, In a l -> forall s, f s a = g s a) ->
  for_each f l s = for_each g l s.
Proof.
  revert s. induction l as [|a l IH]; intros s H; simpl; [reflexivity|].
  rewrite (H a (or_introl eq_refl)).
  destruct (g s a); simpl; [|reflexivity].
  apply IH. intros b Hb. apply H. now right.
Qed.

Section Local.

Variables w1 w2 : World.
Hypothesis Hrun : forall args, subprocess_run w1 args = subprocess_run w2 args.
Hypothesis Hiso : forall t, fromtimestamp_iso w1 t = fromtimestamp_iso w2 t.
Variable directory : path.
Hypothesis Hdir : OS.resolve w1 directory = OS.resolve w2 directory.

Lemma local_resolve (below : path) :
  OS.resolve w1 (directory ++ below)%list
  = OS.resolve w2 (directory ++ below)%list.
Proof.
  pose proof Hdir as H. unfold OS.resolve in H |- *.
  rewrite !resolve_from_app, H. reflexivity.
Qed.

Lemma local_listdir : OS.listdir w1 directory = OS.listdir w2 directory.
Proof. unfold OS.listdir. now rewrite Hdir. Qed.

Lemma local_scan_tree (extensions : list string) :
  scan_tree w1 directory extensions = scan_tree w2 directory extensions.
Proof.
  unfold scan_tree, OS.walk. rewrite <- Hdir.
  case_eq (OS.resolve w1 directory); [intros n _|reflexivity].
  apply for_each_ext_in. intros [[root dirs] files] Hin st.
  destruct (walk_node_below n _ _ Hin) as [below Hroot]. simpl in Hroot.
  subst root. unfold scan_dir. apply for_each_ext. intros st' file.
  unfold scan_file, OS.getmtime, OS.path_join.
  now rewrite <- !app_assoc, local_resolve.
Qed.

Lemma local_last_modified (extensions : list string) :
  get_last_modified w1 directory extensions
  = get_last_modified w2 directory extensions.
Proof.
  unfold get_last_modified. rewrite local_scan_tree.
  destruct (scan_tree w2 directory extensions) as [[t [f|]]|e];
    try reflexivity.
  now rewrite Hiso.
Qed.


End Local.




(* ===================================================================== *)
(** ** Failure isolation *)
(* ===================================================================== *)



(** C1, the code at the failing input: the iOS directory does not exist
    and the log path is a regular file.  [os.path.exists] lets it through,
    listing it raises outside every [try], so no snapshot is built, where
    the claim has one with an ErrorNote for the project: the request ends in
    the exception. *)
Lemma missing_project_no_snapshot :
  OS.path_exists Sample.logs_is_a_file IOS_DIR = false
  /\ get_project_stats Sample.logs_is_a_file
     = Raise "[Errno 20] Not a directory: '/Users/jfuginay/Documents/dev/Flexport/terminal_logs'"
  /\ do_GET Sample.logs_is_a_file "/api/stats"
     = Raise "[Errno 20] Not a directory: '/Users/jfuginay/Documents/dev/Flexport/terminal_logs'"
  /\ ~ exists snapshot, get_project_stats Sample.logs_is_a_file = Ok snapshot.
Proof.
  repeat split; try reflexivity.
  intros [snapshot H]. discriminate.
Qed.

(* ===================================================================== *)
(** ** The version-control prober *)
(* ===================================================================== *)

Lemma git_info_ran (w : World) (directory : path) (r1 r2 r3 : CompletedProcess) :
  has_marker w directory ->
  subcalls_ran w directory r1 r2 r3 ->
  get_git_info w directory
  = vcs_status
      (PStr (if (returncode r1 =? 0)%Z then Str.strip (stdout r1)
             else "unknown"))
      (PInt (Z.of_nat (count_changes (stdout r2))))
      (PStr (if (returncode r3 =? 0)%Z then Str.strip (stdout r3)
             else "No commits")).
Proof.
  intros Hmarker (H1 & H2 & H3). unfold get_git_info, git_probe.
  rewrite Hmarker, H1. simpl. rewrite H2. simpl. rewrite H3. reflexivity.
Qed.

Lemma git_info_never_error_note (w : World) (directory : path) :
  ~ is_error_note (get_git_info w directory).
Proof.
  intros [msg H]. unfold get_git_info, git_probe in H.
  destruct (OS.path_exists w (OS.path_join directory ".git"));
    [|discriminate].
  destruct (subprocess_run w (git_branch_args directory)); [|discriminate].
  simpl in H.
  destruct (subprocess_run w (git_status_args directory)); [|discriminate].
  simpl in H.
  destruct (subprocess_run w (git_log_args directory)); discriminate.
Qed.

(** C4 (as the code has it).  When the directory carries the marker and a
    sub-call to the version-control tool cannot be started (tool not
    found), the whole probe result is the "no repository" sentinel, the
    value a directory without marker gets: not an ErrorNote and not a
    partial VcsStatus. *)
Theorem catastrophic_failure_gives_sentinel (w : World) (directory : path) :
  has_marker w directory ->
  subcall_raises w directory ->
  get_git_info w directory = no_git_repository
  /\ ~ is_error_note (get_git_info w directory).
Proof.
  intros Hmarker Hraise. split; [|apply git_info_never_error_note].
  unfold get_git_info, git_probe. rewrite Hmarker.
  destruct (subprocess_run w (git_branch_args directory)) as [r1|e1] eqn:E1;
    [|reflexivity].
  simpl.
  destruct (subprocess_run w (git_status_args directory)) as [r2|e2] eqn:E2;
    [|reflexivity].
  simpl.
  destruct (subprocess_run w (git_log_args directory)) as [r3|e3] eqn:E3;
    [|reflexivity].
  destruct Hraise as [[e H]|[[e H]|[e H]]]; congruence.
Qed.

Lemma catastrophic_failure_gives_sentinel_witness :
  get_git_info Sample.repository_without_git IOS_DIR = no_git_repository
  /\ ~ is_error_note (get_git_info Sample.repository_without_git IOS_DIR).
Proof.
  apply (catastrophic_failure_gives_sentinel
           Sample.repository_without_git IOS_DIR).
  - reflexivity.
  - left. eexists. reflexivity.
Defined.

(** C4, refuted as stated: an iOS working copy on a machine without the
    tool.  Every sub-call raises, and the probe answers with the sentinel,
    which is not an ErrorNote. *)
Lemma tool_not_found_is_not_an_error_note :
  has_marker Sample.repository_without_git IOS_DIR
  /\ subcall_raises Sample.repository_without_git IOS_DIR
  /\ get_git_info Sample.repository_without_git IOS_DIR
     = PDict [("status", PStr "No git repository")]
  /\ ~ is_error_note (get_git_info Sample.repository_without_git IOS_DIR).
Proof.
  split; [reflexivity|]. split; [left; eexists; reflexivity|].
  split; [reflexivity|].
  intros [msg H]. discriminate.
Qed.

(** C6 (as the code has it).  With the marker present and the three
    sub-calls run: a failing branch sub-call (the others succeeding) gives
    the branch ["unknown"], a failing last-commit sub-call (the others
    succeeding) gives the last commit ["No commits"]; in both cases the
    other two fields carry their successful values.  Whatever the exit
    codes, the probe does not fail: its result is a VcsStatus of three
    fields. *)
Theorem failing_subcall_degrades_its_field
  (w : World) (directory : path) (r1 r2 r3 : CompletedProcess) :
  has_marker w directory ->
  subcalls_ran w directory r1 r2 r3 ->
  (returncode r1 <> 0%Z -> returncode r2 = 0%Z -> returncode r3 = 0%Z ->
   get_git_info w directory
   = vcs_status (PStr "unknown")
       (PInt (Z.of_nat (count_changes (stdout r2))))
       (PStr (Str.strip (stdout r3))))
  /\ (returncode r1 = 0%Z -> returncode r2 = 0%Z -> returncode r3 <> 0%Z ->
      get_git_info w directory
      = vcs_status (PStr (Str.strip (stdout r1)))
          (PInt (Z.of_nat (count_changes (stdout r2))))
          (PStr "No commits"))
  /\ (exists branch changes last_commit,
        get_git_info w directory
        = vcs_status (PStr branch) (PInt changes) (PStr last_commit)).
Proof.
  intros Hmarker Hran. rewrite (git_info_ran w directory r1 r2 r3 Hmarker Hran).
  split; [|split].
  - intros H1 _ H3. apply Z.eqb_neq in H1. apply Z.eqb_eq in H3.
    now rewrite H1, H3.
  - intros H1 _ H3. apply Z.eqb_eq in H1. apply Z.eqb_neq in H3.
    now rewrite H1, H3.
  - now eexists _, _, _.
Qed.

Lemma failing_subcall_degrades_its_field_witness :
  get_git_info Sample.no_commit_yet IOS_DIR
  = vcs_status (PStr "main") (PInt 0) (PStr "No commits").
Proof.
  refine (proj1 (proj2 (failing_subcall_degrades_its_field
                          Sample.no_commit_yet IOS_DIR Sample.on_main
                          (mkCompleted 0 "") (mkCompleted 128 "") _ _))
            _ _ _).
  - reflexivity.
  - repeat split; reflexivity.
  - reflexivity.
  - reflexivity.
  - discriminate.
Defined.

(** C6, refuted as stated: a status sub-call that exits non-zero is not
    degraded to any placeholder.  Its exit code is never read: the field is
    the count taken from whatever it wrote, 2 for a call cut short after two
    entries and 0 for a call that wrote nothing.  (And the placeholder of
    the last commit is ["No commits"], not ["unknown"].) *)
Lemma status_failure_is_not_degraded :
  get_git_info Sample.status_cut_short IOS_DIR
  = vcs_status (PStr "main") (PInt 2) (PStr "1a2b3c4 Initial commit")
  /\ get_git_info Sample.status_failed_silent IOS_DIR
     = vcs_status (PStr "main") (PInt 0) (PStr "1a2b3c4 Initial commit")
  /\ get_git_info Sample.no_commit_yet IOS_DIR
     = vcs_status (PStr "main") (PInt 0) (PStr "No commits")
  /\ ~ (exists unknown_branch unknown_changes unknown_commit,
          degrades_own_field unknown_branch unknown_changes unknown_commit).
Proof.
  split; [reflexivity|]. split; [reflexivity|]. split; [reflexivity|].
  intros (ub & uc & ul & H).
  pose proof (H Sample.status_cut_short IOS_DIR Sample.on_main
                (mkCompleted 1 (" M a.swift" ++ Sample.lf ++
                                "?? notes.txt" ++ Sample.lf))
                Sample.one_commit eq_refl
                (conj eq_refl (conj eq_refl eq_refl))) as (_ & H2 & _).
  pose proof (H Sample.status_failed_silent IOS_DIR Sample.on_main
                (mkCompleted 128 "") Sample.one_commit eq_refl
                (conj eq_refl (conj eq_refl eq_refl))) as (_ & H0 & _).
  simpl in H2, H0.
  specialize (H2 eq_refl ltac:(discriminate) eq_refl).
  specialize (H0 eq_refl ltac:(discriminate) eq_refl).
  vm_compute in H2. vm_compute in H0. congruence.
Qed.

(* ===================================================================== *)
(** ** Counting the lines of a status output *)
(* ===================================================================== *)

Section Lines.

Implicit Types (s : string) (c : ascii).

Lemma nl_is_space : Str.is_space Str.nl = true.
Proof. reflexivity. Qed.

Lemma split_nl_cons s : exists h t, Str.split_nl s = h :: t.
Proof.
  destruct s as [|c s]; simpl.
  - now eexists _, _.
  - destruct (Ascii.eqb c Str.nl); [now eexists _, _|].
    destruct (Str.split_nl s); now eexists _, _.
Qed.

Lemma split_nl_char c s h t :
  Ascii.eqb c Str.nl = false -> Str.split_nl s = h :: t ->
  Str.split_nl (String c s) = String c h :: t.
Proof. intros Hc Hs. simpl. now rewrite Hc, Hs. Qed.

Lemma split_nl_newline c s :
  Ascii.eqb c Str.nl = true ->
  Str.split_nl (String c s) = "" :: Str.split_nl s.
Proof. intros Hc. simpl. now rewrite Hc. Qed.

Lemma split_nl_length s : length (Str.split_nl s) = S (count_nl s).
Proof.
  induction s as [|c s IH]; simpl; [reflexivity|].
  destruct (Ascii.eqb c Str.nl); simpl.
  - now rewrite IH.
  - destruct (Str.split_nl s); simpl in *; [discriminate|exact IH].
Qed.

(** A white-space character in front changes no line from blank to
    non-blank or back. *)
Lemma nonblank_space_cons c s :
  Str.is_space c = true ->
  nonblank (Str.split_nl (String c s)) = nonblank (Str.split_nl s).
Proof.
  intros Hc. destruct (split_nl_cons s) as (h & t & Hs). simpl.
  destruct (Ascii.eqb c Str.nl).
  - reflexivity.
  - rewrite Hs. unfold nonblank. simpl. rewrite Hc. simpl.
    now destruct (all_space h).
Qed.

Lemma nonblank_all_space s :
  all_space s = true -> nonblank (Str.split_nl s) = 0.
Proof.
  induction s as [|c s IH]; [reflexivity|].
  cbn [all_space]. intros H. apply andb_prop in H as [Hc Hs].
  rewrite nonblank_space_cons by assumption. now apply IH.
Qed.

Lemma nonblank_lstrip s :
  nonblank (Str.split_nl (Str.lstrip s)) = nonblank (Str.split_nl s).
Proof.
  induction s as [|c s IH]; [reflexivity|].
  cbn [Str.lstrip]. destruct (Str.is_space c) eqn:Hc; [|reflexivity].
  now rewrite nonblank_space_cons.
Qed.

Lemma rstrip_empty s : Str.rstrip s = "" -> all_space s = true.
Proof.
  induction s as [|c s IH]; [reflexivity|].
  cbn [Str.rstrip all_space].
  destruct (Str.rstrip s) as [|c' r]; [|discriminate].
  destruct (Str.is_space c); [|discriminate].
  intros _. now rewrite IH.
Qed.

Lemma nonblank_head_tail (lines : list string) :
  nonblank lines
  = (if head_blank lines then 0 else 1) + nonblank (tl lines).
Proof.
  destruct lines as [|h t]; [reflexivity|].
  unfold nonblank. simpl. now destruct (all_space h).
Qed.

Lemma rstrip_lines s :
  Str.rstrip s <> "" ->
  head_blank (Str.split_nl (Str.rstrip s)) = head_blank (Str.split_nl s)
  /\ nonblank (tl (Str.split_nl (Str.rstrip s)))
     = nonblank (tl (Str.split_nl s)).
Proof.
  induction s as [|c s IH]; [intros H; now contradiction H|].
  cbn [Str.rstrip]. destruct (Str.rstrip s) as [|c' r] eqn:Hr.
  - (* everything after [c] is white space *)
    apply rstrip_empty in Hr.
    destruct (Str.is_space c) eqn:Hc; [intros H; now contradiction H|].
    intros _.
    assert (Hnl : Ascii.eqb c Str.nl = false).
    { destruct (Ascii.eqb_spec c Str.nl) as [->|]; [|reflexivity].
      now rewrite nl_is_space in Hc. }
    destruct (split_nl_cons s) as (h & t & Hs).
    rewrite (split_nl_char c s h t Hnl Hs).
    cbn [Str.split_nl]. rewrite Hnl. cbn [head_blank all_space tl].
    rewrite Hc. split; [reflexivity|].
    pose proof (nonblank_all_space s Hr) as H0.
    rewrite Hs, nonblank_head_tail in H0. cbn [tl] in H0.
    unfold nonblank at 1. simpl. lia.
  - intros _. destruct IH as [IHh IHt]; [discriminate|].
    destruct (Ascii.eqb c Str.nl) eqn:Hnl.
    + rewrite !(split_nl_newline c) by assumption. cbn [head_blank tl].
      split; [reflexivity|].
      rewrite (nonblank_head_tail (Str.split_nl (String c' r))),
        (nonblank_head_tail (Str.split_nl s)).
      now rewrite IHh, IHt.
    + destruct (split_nl_cons s) as (h & t & Hs).
      destruct (split_nl_cons (String c' r)) as (h' & t' & Hs').
      rewrite (split_nl_char c s h t Hnl Hs),
        (split_nl_char c _ h' t' Hnl Hs').
      rewrite Hs, Hs' in IHh, IHt. cbn [head_blank tl all_space] in *.
      now rewrite IHh, IHt.
Qed.

Lemma nonblank_rstrip s :
  Str.rstrip s <> "" ->
  nonblank (Str.split_nl (Str.rstrip s)) = nonblank (Str.split_nl s).
Proof.
  intros H. destruct (rstrip_lines s H) as [Hh Ht].
  rewrite (nonblank_head_tail (Str.split_nl (Str.rstrip s))),
    (nonblank_head_tail (Str.split_nl s)).
  now rewrite Hh, Ht.
Qed.

Lemma truthy_false s : Str.truthy s = false <-> s = "".
Proof. destruct s; simpl; split; intros H; congruence. Qed.

Lemma filter_partition_length {A : Type} (f : A -> bool) (l : list A) :
  length l
  = length (filter (fun x => negb (f x)) l) + length (filter f l).
Proof.
  induction l as [|a l IH]; [reflexivity|]. simpl.
  destruct (f a); simpl; lia.
Qed.

(** What the code counts, on every output: the non-blank lines of the
    output and the blank lines between them. *)
Lemma count_changes_lines (out : string) :
  count_changes out = nonblank_lines out + interior_blank_lines out.
Proof.
  unfold count_changes, interior_blank_lines, nonblank_lines, Str.strip.
  destruct (Str.truthy (Str.rstrip (Str.lstrip out))) eqn:Ht.
  - rewrite (filter_partition_length all_space).
    f_equal. fold (nonblank (Str.split_nl (Str.rstrip (Str.lstrip out)))).
    rewrite nonblank_rstrip, nonblank_lstrip; [reflexivity|].
    intros H. apply truthy_false in H. congruence.
  - apply truthy_false in Ht. apply rstrip_empty in Ht.
    apply nonblank_all_space in Ht. rewrite nonblank_lstrip in Ht.
    now rewrite Ht.
Qed.

End Lines.

Section StatusOutput.

Implicit Types (s e : string) (entries : list string).

Lemma count_nl_app s1 s2 :
  count_nl (s1 ++ s2) = count_nl s1 + count_nl s2.
Proof. induction s1 as [|c s1 IH]; simpl; [reflexivity|]. rewrite IH. lia. Qed.

Lemma all_space_app s1 s2 :
  all_space (s1 ++ s2) = all_space s1 && all_space s2.
Proof.
  induction s1 as [|c s1 IH]; simpl; [reflexivity|].
  now rewrite IH, andb_assoc.
Qed.

Lemma split_nl_line e rest :
  count_nl e = 0 ->
  Str.split_nl (e ++ String Str.nl rest) = e :: Str.split_nl rest.
Proof.
  induction e as [|c e IH]; simpl.
  - reflexivity.
  - destruct (Ascii.eqb c Str.nl); [discriminate|]. simpl.
    intros H. now rewrite IH.
Qed.

Lemma count_nl_unlines entries :
  Forall status_entry entries -> count_nl (unlines entries) = length entries.
Proof.
  induction 1 as [|e entries [He _] _ IH]; simpl; [reflexivity|].
  rewrite count_nl_app, He. simpl. now rewrite IH.
Qed.

Lemma nonblank_unlines entries :
  Forall status_entry entries ->
  nonblank_lines (unlines entries) = length entries.
Proof.
  unfold nonblank_lines.
  induction 1 as [|e entries [He Hb] _ IH]; simpl; [reflexivity|].
  rewrite split_nl_line by assumption.
  unfold nonblank in *. simpl. rewrite Hb. simpl. now rewrite IH.
Qed.

Lemma nonempty_unlines entries :
  Forall status_entry entries ->
  nonempty_lines (unlines entries) = length entries.
Proof.
  unfold nonempty_lines.
  induction 1 as [|e entries [He Hb] _ IH]; simpl; [reflexivity|].
  rewrite split_nl_line by assumption. simpl.
  destruct e; [discriminate|]. simpl. now rewrite IH.
Qed.

Lemma count_nl_lstrip s : count_nl (Str.lstrip s) <= count_nl s.
Proof.
  induction s as [|c s IH]; simpl; [lia|].
  destruct (Str.is_space c); simpl; lia.
Qed.

Lemma ends_nl_cons c s : s <> "" -> ends_nl (String c s) = ends_nl s.
Proof. destruct s; [congruence|reflexivity]. Qed.

Lemma ends_nl_lstrip s :
  ends_nl s = true -> all_space s = false -> ends_nl (Str.lstrip s) = true.
Proof.
  induction s as [|c s IH]; [discriminate|].
  intros He Hs. cbn [Str.lstrip].
  destruct (Str.is_space c) eqn:Hc; [|exact He].
  cbn [all_space] in Hs. rewrite Hc in Hs. simpl in Hs.
  destruct s as [|c' s']; [discriminate|].
  apply IH; [|exact Hs]. now rewrite ends_nl_cons in He.
Qed.

Lemma count_nl_rstrip s :
  ends_nl s = true -> count_nl (Str.rstrip s) < count_nl s.
Proof.
  induction s as [|c s IH]; [discriminate|].
  destruct s as [|c' s'].
  - simpl. intros Hc. rewrite Hc.
    apply Ascii.eqb_eq in Hc. subst c. simpl. lia.
  - intros He. rewrite ends_nl_cons in He by discriminate.
    specialize (IH He). remember (String c' s') as s0 eqn:Hs0.
    cbn [Str.rstrip].
    assert (Hcount : forall r, count_nl (String c r)
              = (if Ascii.eqb c Str.nl then 1 else 0) + count_nl r)
      by reflexivity.
    destruct (Str.rstrip s0) as [|c'' r].
    + rewrite Hcount.
      destruct (Str.is_space c) eqn:Hc; [simpl in *; lia|].
      rewrite Hcount.
      destruct (Ascii.eqb_spec c Str.nl) as [->|_]; [|simpl in *; lia].
      now rewrite nl_is_space in Hc.
    + rewrite !Hcount. lia.
Qed.

Lemma app_nonempty s1 s2 : s2 <> "" -> s1 ++ s2 <> "".
Proof. destruct s1; [trivial|discriminate]. Qed.

Lemma ends_nl_app s1 s2 : s2 <> "" -> ends_nl (s1 ++ s2) = ends_nl s2.
Proof.
  intros H. induction s1 as [|c s1 IH]; [reflexivity|].
  change (String c s1 ++ s2) with (String c (s1 ++ s2)).
  rewrite ends_nl_cons by now apply app_nonempty.
  exact IH.
Qed.

Lemma unlines_ends_nl e entries : ends_nl (unlines (e :: entries)) = true.
Proof.
  revert e. induction entries as [|e' entries IH]; intros e;
    change (unlines (e :: ?l)) with (e ++ String Str.nl (unlines l));
    rewrite ends_nl_app by discriminate.
  - reflexivity.
  - rewrite ends_nl_cons; [apply IH|].
    change (unlines (e' :: entries))
      with (e' ++ String Str.nl (unlines entries)).
    apply app_nonempty. discriminate.
Qed.

(** The code counts at most one line per entry... *)
Lemma count_changes_unlines_le entries :
  Forall status_entry entries ->
  count_changes (unlines entries) <= length entries.
Proof.
  intros H. destruct H as [|e entries [He Hb] H]; [apply Nat.le_refl|].
  unfold count_changes.
  destruct (Str.truthy (Str.strip (unlines (e :: entries)))); [|lia].
  rewrite split_nl_length.
  rewrite <- (count_nl_unlines (e :: entries))
    by (constructor; [split|]; assumption).
  unfold Str.strip.
  pose proof (count_nl_lstrip (unlines (e :: entries))).
  pose proof (count_nl_rstrip (Str.lstrip (unlines (e :: entries)))) as Hr.
  assert (Hns : all_space (unlines (e :: entries)) = false).
  { simpl. now rewrite all_space_app, Hb. }
  specialize (Hr (ends_nl_lstrip _ (unlines_ends_nl e entries) Hns)).
  lia.
Qed.

(** ... and exactly one. *)
Lemma count_changes_unlines entries :
  Forall status_entry entries ->
  count_changes (unlines entries) = length entries
  /\ interior_blank_lines (unlines entries) = 0.
Proof.
  intros H.
  pose proof (count_changes_unlines_le entries H).
  pose proof (count_changes_lines (unlines entries)).
  pose proof (nonblank_unlines entries H).
  lia.
Qed.

Lemma count_changes_all_space s : all_space s = true -> count_changes s = 0.
Proof.
  intros H. rewrite count_changes_lines.
  unfold nonblank_lines. rewrite (nonblank_all_space s H).
  unfold interior_blank_lines.
  destruct (Str.truthy (Str.strip s)) eqn:Ht; [|reflexivity].
  exfalso. unfold count_changes in *.
  assert (Hl : all_space (Str.lstrip s) = true).
  { clear Ht. induction s as [|c s IH]; [reflexivity|].
    simpl in *. apply andb_prop in H as [Hc Hs]. rewrite Hc. now apply IH. }
  assert (Hr : forall t, all_space t = true -> Str.rstrip t = "").
  { induction t as [|c t IH]; [reflexivity|].
    simpl. intros Hct. apply andb_prop in Hct as [Hc Hs].
    now rewrite (IH Hs), Hc. }
  unfold Str.strip in Ht. now rewrite (Hr _ Hl) in Ht.
Qed.

End StatusOutput.

(** C5.  For every status output of the shape the version-control tool
    gives it -- one entry per line, each line ended by a newline, no entry
    blank -- the prober stores as [uncommitted_changes] exactly the number
    of non-empty lines of that output, which is the number of its entries;
    for an output that is empty or all white space it stores 0. *)
Theorem uncommitted_changes_counts_lines
  (w : World) (directory : path) (r1 r2 r3 : CompletedProcess) :
  has_marker w directory ->
  subcalls_ran w directory r1 r2 r3 ->
  (forall entries,
     Forall status_entry entries ->
     stdout r2 = unlines entries ->
     field "uncommitted_changes" (get_git_info w directory)
     = Some (PInt (Z.of_nat (nonempty_lines (stdout r2))))
     /\ nonempty_lines (stdout r2) = length entries)
  /\ (all_space (stdout r2) = true ->
      field "uncommitted_changes" (get_git_info w directory)
      = Some (PInt 0)).
Proof.
  intros Hmarker Hran.
  rewrite (git_info_ran w directory r1 r2 r3 Hmarker Hran). simpl.
  split.
  - intros entries Hentries ->.
    rewrite (nonempty_unlines entries Hentries).
    now rewrite (proj1 (count_changes_unlines entries Hentries)).
  - intros Hblank. now rewrite (count_changes_all_space _ Hblank).
Qed.

Lemma uncommitted_changes_counts_lines_witness :
  field "uncommitted_changes" (get_git_info Sample.working_copy IOS_DIR)
  = Some (PInt (Z.of_nat (nonempty_lines (" M a.swift" ++ Sample.lf ++
                                          "?? notes.txt" ++ Sample.lf))))
  /\ nonempty_lines (" M a.swift" ++ Sample.lf ++
                     "?? notes.txt" ++ Sample.lf) = 2.
Proof.
  refine (proj1 (uncommitted_changes_counts_lines
                   Sample.working_copy IOS_DIR Sample.on_main
                   (mkCompleted 0 (" M a.swift" ++ Sample.lf ++
                                   "?? notes.txt" ++ Sample.lf))
                   Sample.one_commit _ _)
            [" M a.swift"; "?? notes.txt"] _ _).
  - reflexivity.
  - repeat split; reflexivity.
  - repeat constructor.
  - reflexivity.
Defined.

(* ===================================================================== *)
(** ** The file-system prober *)
(* ===================================================================== *)

Lemma permutation_of_three {A : Type} (x y z : A) (l : list A) :
  Permutation l [x; y; z] ->
  l = [x; y; z] \/ l = [x; z; y] \/ l = [y; x; z]
  \/ l = [y; z; x] \/ l = [z; x; y] \/ l = [z; y; x].
Proof.
  intros H.
  destruct (Permutation_vs_cons_inv H) as (l1 & l2 & Hl). subst l.
  apply Permutation_sym, Permutation_cons_app_inv,
    Permutation_length_2_inv in H.
  destruct l1 as [|a [|b [|c l1]]]; simpl in *;
    destruct H as [H|H]; inversion H; subst; auto 10.
Qed.

Section Scenario.

Variable w : World.
Variables (t0 ts ta tb tc : Z) (ca cb cc : result (list string)).
Variable es : list (string * node).

Hypothesis Hres : OS.resolve w IOS_DIR = Some (Dir t0 es).
Hypothesis Hes :
  Permutation es [("a.swift", File ta ca); ("b.swift", File tb cb);
                  ("sub", Dir ts [("c.swift", File tc cc)])].

Lemma scenario_count : OS.listdir w IOS_DIR = Ok (map fst es)
                       /\ count_suffix ".swift" (map fst es) = 2%Z.
Proof.
  unfold OS.listdir. rewrite Hres. split; [reflexivity|].
  destruct (permutation_of_three _ _ _ _ Hes)
    as [-> | [-> | [-> | [-> | [-> | ->]]]]]; reflexivity.
Qed.

Lemma scenario_mtime_top (name : string) :
  OS.getmtime w (OS.path_join IOS_DIR name)
  = match Dict.get name es with
    | Some n =>
        match node_mtime n with
        | Some t => Ok t
        | None => Raise (OS.no_such_file (OS.path_join IOS_DIR name))
        end
    | None => Raise (OS.no_such_file (OS.path_join IOS_DIR name))
    end.
Proof.
  unfold OS.getmtime. rewrite resolve_join, Hres. simpl.
  now destruct (Dict.get name es).
Qed.

Lemma scenario_mtime_sub :
  OS.getmtime w (OS.path_join (OS.path_join IOS_DIR "sub") "c.swift")
  = Ok tc.
Proof.
  unfold OS.getmtime. rewrite !resolve_join, Hres.
  destruct (permutation_of_three _ _ _ _ Hes)
    as [-> | [-> | [-> | [-> | [-> | ->]]]]]; reflexivity.
Qed.

Lemma scenario_last_modified :
  (ta < tc)%Z -> (tb < tc)%Z -> (0 < tc)%Z ->
  get_last_modified w IOS_DIR [".swift"]
  = match fromtimestamp_iso w tc with
    | Ok time => PDict [("file", PStr "/sub/c.swift"); ("time", PStr time)]
    | Raise _ => PNone
    end.
Proof.
  intros Ha Hb Hc.
  unfold get_last_modified, scan_tree, OS.walk. rewrite Hres.
  pose proof scenario_mtime_sub as Hsub.
  pose proof scenario_mtime_top as Htop.
  destruct (permutation_of_three _ _ _ _ Hes)
    as [-> | [-> | [-> | [-> | [-> | ->]]]]];
    simpl; unfold scan_file; simpl;
    rewrite ?Htop; simpl;
    repeat match goal with
           | |- context [(?a <? ?b)%Z] =>
               destruct (Z.ltb_spec a b); simpl; rewrite ?Htop, ?Hsub; simpl
           end;
    try reflexivity; try lia.
Qed.

End Scenario.

(** X15.  The count is shallow and the search for the last modification
    is recursive: when the iOS directory holds [a.swift], [b.swift] and
    [sub/c.swift], in whatever order they are listed, and [sub/c.swift] is
    the most recently modified, at a time after the epoch that [datetime]
    can render, the section reports [swift_files] = 2 and the last modified
    file ["/sub/c.swift"], the path relative to the project directory. *)
Theorem shallow_count_recursive_recency
  (w : World) (t0 ts ta tb tc : Z) (ca cb cc : result (list string))
  (es : list (string * node)) (time : string) :
  OS.resolve w IOS_DIR = Some (Dir t0 es) ->
  Permutation es [("a.swift", File ta ca); ("b.swift", File tb cb);
                  ("sub", Dir ts [("c.swift", File tc cc)])] ->
  (ta < tc)%Z -> (tb < tc)%Z -> (0 < tc)%Z ->
  fromtimestamp_iso w tc = Ok time ->
  Dict.get "swift_files" (ios_section w) = Some (PInt 2)
  /\ Dict.get "last_modified" (ios_section w)
     = Some (PDict [("file", PStr "/sub/c.swift"); ("time", PStr time)]).
Proof.
  intros Hres Hes Ha Hb Hc Htime.
  destruct (scenario_count w t0 ts ta tb tc ca cb cc es Hres Hes) as [Hl Hn].
  rewrite ios_section_cases, Hl, Hn.
  rewrite (scenario_last_modified w t0 ts ta tb tc ca cb cc es Hres Hes Ha Hb Hc).
  rewrite Htime. split; reflexivity.
Qed.

Lemma shallow_count_recursive_recency_witness :
  Dict.get "swift_files" (ios_section (Sample.scenario 100 200 300))
  = Some (PInt 2)
  /\ Dict.get "last_modified" (ios_section (Sample.scenario 100 200 300))
     = Some (PDict [("file", PStr "/sub/c.swift");
                    ("time", PStr "2025-06-01T12:00:00")]).
Proof.
  apply (shallow_count_recursive_recency (Sample.scenario 100 200 300)
           300 300 100 200 300 (Ok ["import UIKit"]) (Ok []) (Ok [])
           (Sample.scenario_entries 100 200 300)).
  - reflexivity.
  - apply Permutation_refl.
  - reflexivity.
  - reflexivity.
  - reflexivity.
  - reflexivity.
Defined.

(** C3, the code on the scenario of the claim: the search starts from the
    time 0 and takes a file only when it is strictly more recent, so a file
    modified at the epoch (or before) is never the latest.  With the three
    files dated at and before the epoch, [sub/c.swift] is the most recently
    modified, the count is 2, and no last modified file is reported where
    the claim (and the docstring of [get_last_modified]) names
    [/sub/c.swift]. *)
Theorem epoch_file_is_not_reported :
  OS.getmtime (Sample.scenario (-200) (-100) 0)
    (OS.path_join IOS_DIR "a.swift") = Ok (-200)%Z
  /\ OS.getmtime (Sample.scenario (-200) (-100) 0)
       (OS.path_join IOS_DIR "b.swift") = Ok (-100)%Z
  /\ OS.getmtime (Sample.scenario (-200) (-100) 0)
       (OS.path_join (OS.path_join IOS_DIR "sub") "c.swift") = Ok 0%Z
  /\ Dict.get "swift_files" (ios_section (Sample.scenario (-200) (-100) 0))
     = Some (PInt 2)
  /\ Dict.get "last_modified" (ios_section (Sample.scenario (-200) (-100) 0))
     = Some PNone
  /\ get_last_modified (Sample.scenario (-200) (-100) 0) IOS_DIR [".swift"]
     = PNone.
Proof. repeat split; reflexivity. Qed.

(* ===================================================================== *)
(** * Further properties of the code *)
(* ===================================================================== *)

(* ===================================================================== *)
(** ** The log tailer: which entries, in which order *)
(* ===================================================================== *)

Lemma tail_logs_not_log (w : World) (names : list string) (logs : pydict)
  (k : string) :
  is_log k = false ->
  Dict.get k (fold_left (tail_log w) names logs) = Dict.get k logs.
Proof.
  intros Hk. revert logs. induction names as [|a names IH]; intros logs; simpl.
  - reflexivity.
  - rewrite IH, tail_log_spec.
    destruct (Str.endswith a ".log") eqn:Ha; [|reflexivity].
    apply get_set_other. intros ->. unfold is_log in Hk. congruence.
Qed.

Lemma get_terminal_logs_listing (w : World) (logs : pydict) :
  get_terminal_logs w = Ok logs ->
  (OS.path_exists w LOGS_DIR = false /\ logs = [])
  \/ (exists names, OS.listdir w LOGS_DIR = Ok names
                    /\ logs = fold_left (tail_log w) names []).
Proof.
  unfold get_terminal_logs.
  destruct (OS.path_exists w LOGS_DIR).
  - destruct (OS.listdir w LOGS_DIR) as [names|e]; simpl; [|discriminate].
    intros [= <-]. right. now exists names.
  - intros [= <-]. now left.
Qed.

(** X1.  Every entry of the mapping the tailer returns belongs to a name of
    the listing that ends in [.log], and is a list of at most 50 strings;
    a name that does not end in [.log] never gets an entry. *)
Theorem terminal_logs_entries (w : World) (logs : pydict) (k : string)
  (v : pyval) :
  get_terminal_logs w = Ok logs ->
  Dict.get k logs = Some v ->
  is_log k = true
  /\ (exists names, OS.listdir w LOGS_DIR = Ok names /\ In k names)
  /\ v = log_entry w k
  /\ excerpt v.
Proof.
  intros Hlogs Hget.
  destruct (get_terminal_logs_listing w logs Hlogs)
    as [[_ ->]|(names & Hnames & ->)]; [discriminate|].
  assert (Hlog : is_log k = true).
  { destruct (is_log k) eqn:E; [reflexivity|].
    rewrite (tail_logs_not_log w names [] k E) in Hget. discriminate. }
  assert (Hin : In k names).
  { destruct (in_dec string_dec k names) as [H|H]; [exact H|].
    rewrite (tail_logs_untouched w names [] k H) in Hget. discriminate. }
  rewrite (tail_logs_entry w names [] k Hin Hlog) in Hget.
  injection Hget as <-.
  repeat split; [exact Hlog|now exists names|apply log_entry_bounded].
Qed.

Lemma terminal_logs_entries_witness :
  is_log "build.log" = true
  /\ (exists names, OS.listdir Fixture.with_logs LOGS_DIR = Ok names
                    /\ In "build.log" names)
  /\ PList [PStr "l1"; PStr "l2"] = log_entry Fixture.with_logs "build.log"
  /\ excerpt (PList [PStr "l1"; PStr "l2"]).
Proof.
  eapply (terminal_logs_entries Fixture.with_logs); reflexivity.
Defined.

(** X2.  A log file that cannot be read (it cannot be opened or decoded, or
    it is a directory) is not left out: its entry is the single line
    ["Error reading log: " + str(e)]. *)
Theorem unreadable_log_gets_error_line (w : World) (names : list string)
  (log_file e : string) :
  OS.listdir w LOGS_DIR = Ok names ->
  In log_file names ->
  is_log log_file = true ->
  OS.readlines w (OS.path_join LOGS_DIR log_file) = Raise e ->
  exists logs,
    get_terminal_logs w = Ok logs
    /\ Dict.get log_file logs
       = Some (PList [PStr ("Error reading log: " ++ e)]).
Proof.
  intros Hnames Hin Hlog Hread.
  exists (fold_left (tail_log w) names []). split.
  - unfold get_terminal_logs, OS.path_exists.
    unfold OS.listdir in Hnames |- *.
    destruct (OS.resolve w LOGS_DIR) as [[t c|t es|t|]|]; try discriminate.
    now rewrite Hnames.
  - rewrite (tail_logs_entry w names [] log_file Hin Hlog).
    unfold log_entry. now rewrite Hread.
Qed.

Lemma unreadable_log_gets_error_line_witness :
  exists logs,
    get_terminal_logs Fixture.with_logs = Ok logs
    /\ Dict.get "old.log" logs
       = Some (PList [PStr ("Error reading log: "
                            ++ OS.is_a_directory
                                 (OS.path_join LOGS_DIR "old.log"))]).
Proof.
  apply (unreadable_log_gets_error_line Fixture.with_logs
           ["notes.txt"; "build.log"; "binary.log"; "old.log"]).
  - reflexivity.
  - simpl. auto.
  - reflexivity.
  - reflexivity.
Defined.

Lemma get_app_none {V : Type} (k : string) (d1 d2 : list (string * V)) :
  Dict.get k d1 = None -> Dict.get k (d1 ++ d2)%list = Dict.get k d2.
Proof.
  induction d1 as [|[k' v'] d1 IH]; simpl; [reflexivity|].
  destruct (String.eqb k k'); [discriminate|exact IH].
Qed.

Lemma set_fresh {V : Type} (k : string) (v : V) (d : list (string * V)) :
  Dict.get k d = None -> Dict.set k v d = (d ++ [(k, v)])%list.
Proof.
  induction d as [|[k' v'] d IH]; simpl; [reflexivity|].
  destruct (String.eqb k k'); [discriminate|].
  intros H. now rewrite IH.
Qed.

Lemma tail_logs_in_order (w : World) (names : list string) (logs : pydict) :
  NoDup names ->
  (forall n, In n names -> Dict.get n logs = None) ->
  fold_left (tail_log w) names logs
  = (logs ++ map (fun n => (n, log_entry w n)) (filter is_log names))%list.
Proof.
  intros Hnd. revert logs.
  induction Hnd as [|a names Ha Hnd IH]; intros logs Hfresh; simpl.
  - now rewrite app_nil_r.
  - rewrite tail_log_spec. unfold is_log at 1.
    destruct (Str.endswith a ".log") eqn:Hlog.
    + rewrite set_fresh by (apply Hfresh; now left).
      rewrite IH.
      * now rewrite <- app_assoc.
      * intros n Hn. rewrite get_app_none by (apply Hfresh; now right).
        simpl. destruct (String.eqb_spec n a) as [->|_]; [contradiction|].
        reflexivity.
    + apply IH. intros n Hn. apply Hfresh. now right.
Qed.

(** X3.  The mapping holds exactly one entry per name of the listing that
    ends in [.log], in the order of the listing (the order in which the
    served JSON object carries them). *)
Theorem terminal_logs_in_listing_order (w : World) (t : Z)
  (es : list (string * node)) :
  OS.resolve w LOGS_DIR = Some (Dir t es) ->
  NoDup (map fst es) ->
  get_terminal_logs w
  = Ok (map (fun n => (n, log_entry w n)) (filter is_log (map fst es))).
Proof.
  intros Hdir Hnd. unfold get_terminal_logs, OS.path_exists, OS.listdir.
  rewrite Hdir. simpl. f_equal.
  now rewrite (tail_logs_in_order w (map fst es) [] Hnd).
Qed.

Lemma terminal_logs_in_listing_order_witness :
  get_terminal_logs Fixture.with_logs
  = Ok (map (fun n => (n, log_entry Fixture.with_logs n))
            ["build.log"; "binary.log"; "old.log"]).
Proof.
  apply (terminal_logs_in_listing_order Fixture.with_logs 1
           [("notes.txt", File 2 (Ok ["not a log"]));
            ("build.log", File 5 (Ok ["l1"; "l2"]));
            ("binary.log",
             File 6 (Raise "'utf-8' codec can't decode byte 0xff in position 0: invalid start byte"));
            ("old.log", Dir 7 [])]).
  - reflexivity.
  - simpl. repeat constructor; simpl; intuition discriminate.
Defined.

(* ===================================================================== *)
(** ** The handler: which requests are answered, and how *)
(* ===================================================================== *)

Lemma get_terminal_logs_raises (w : World) (e : string) :
  get_terminal_logs w = Raise e
  <-> OS.path_exists w LOGS_DIR = true /\ OS.listdir w LOGS_DIR = Raise e.
Proof.
  unfold get_terminal_logs.
  destruct (OS.path_exists w LOGS_DIR).
  - destruct (OS.listdir w LOGS_DIR) as [names|e']; simpl; split.
    + discriminate.
    + intros [_ H]. discriminate.
    + intros [= ->]. now split.
    + intros [_ [= ->]]. reflexivity.
  - split; [discriminate|]. intros [H _]. discriminate.
Qed.

(** What makes the listing of an existing path fail. *)
Lemma listdir_raises (w : World) (p : path) (e : string) :
  OS.path_exists w p = true /\ OS.listdir w p = Raise e
  <-> (exists t c, OS.resolve w p = Some (File t c))
      /\ e = OS.not_a_directory p
      \/ (exists t, OS.resolve w p = Some (Denied t))
         /\ e = OS.permission_denied p.
Proof.
  unfold OS.path_exists, OS.listdir.
  destruct (OS.resolve w p) as [[t c|t es|t|]|]; split.
  - intros [_ [= <-]]. left. split; [now exists t, c|reflexivity].
  - intros [[_ ->]|[[t' H] _]]; [now split|discriminate].
  - intros [_ H]. discriminate.
  - intros [[(t' & c & H) _]|[[t' H] _]]; discriminate.
  - intros [_ [= <-]]. right. split; [now exists t|reflexivity].
  - intros [[(t' & c & H) _]|[_ ->]]; [discriminate|now split].
  - intros [H _]. discriminate.
  - intros [[(t' & c & H) _]|[[t' H] _]]; discriminate.
  - intros [H _]. discriminate.
  - intros [[(t' & c & H) _]|[[t' H] _]]; discriminate.
Qed.

Lemma do_GET_cases (w : World) (p : string) :
  (p = "/" /\ do_GET w p = Ok serve_dashboard)
  \/ (p = "/api/stats" /\ do_GET w p = serve_stats w)
  \/ (p = "/api/logs" /\ do_GET w p = Ok serve_logs)
  \/ (p = "/api/terminal" /\ do_GET w p = serve_terminal_logs w)
  \/ (~ In p routes /\ do_GET w p = Ok not_found).
Proof.
  unfold do_GET.
  destruct (String.eqb_spec p "/") as [->|H1]; [now left|].
  destruct (String.eqb_spec p "/api/stats") as [->|H2]; [right; now left|].
  destruct (String.eqb_spec p "/api/logs") as [->|H3];
    [right; right; now left|].
  destruct (String.eqb_spec p "/api/terminal") as [->|H4];
    [right; right; right; now left|].
  right; right; right; right. split; [|reflexivity].
  simpl. intuition congruence.
Qed.

Lemma serve_stats_raises (w : World) (e : string) :
  serve_stats w = Raise e <-> get_terminal_logs w = Raise e.
Proof.
  unfold serve_stats, get_project_stats.
  destruct (get_terminal_logs w) as [logs|e']; simpl; split;
    solve [discriminate | intros [= ->]; reflexivity].
Qed.

Lemma serve_terminal_logs_raises (w : World) (e : string) :
  serve_terminal_logs w = Raise e <-> get_terminal_logs w = Raise e.
Proof.
  unfold serve_terminal_logs.
  destruct (get_terminal_logs w) as [logs|e']; simpl; split;
    solve [discriminate | intros [= ->]; reflexivity].
Qed.

Lemma do_GET_raises (w : World) (p e : string) :
  do_GET w p = Raise e
  <-> In p tailing_routes /\ get_terminal_logs w = Raise e.
Proof.
  destruct (do_GET_cases w p)
    as [[-> H]|[[-> H]|[[-> H]|[[-> H]|[Hp H]]]]]; rewrite H; clear H.
  - split; [discriminate|]. intros [[H|[H|[]]] _]; discriminate.
  - rewrite serve_stats_raises. split; [|now intros [_ H]].
    intros H. split; [now left|exact H].
  - split; [discriminate|]. intros [[H|[H|[]]] _]; discriminate.
  - rewrite serve_terminal_logs_raises. split; [|now intros [_ H]].
    intros H. split; [right; now left|exact H].
  - split; [discriminate|]. intros [Hin _]. exfalso. apply Hp.
    simpl in Hin |- *. intuition.
Qed.

(** X4.  A request ends in an exception instead of a response exactly when
    it is for [/api/stats] or [/api/terminal] and the log path exists but
    [os.listdir] fails on it; the exception is the one of [os.listdir].
    That is the case when the log path is a regular file
    (NotADirectoryError) and when it is a directory that may not be read
    (PermissionError).  Every other request is answered. *)
Theorem request_fails_iff_listing_fails (w : World) (p e : string) :
  (do_GET w p = Raise e
   <-> In p tailing_routes
       /\ OS.path_exists w LOGS_DIR = true
       /\ OS.listdir w LOGS_DIR = Raise e)
  /\ (do_GET w p = Raise e
      <-> In p tailing_routes
          /\ (log_path_is_file w /\ e = OS.not_a_directory LOGS_DIR
              \/ log_path_is_denied w /\ e = OS.permission_denied LOGS_DIR)).
Proof.
  unfold log_path_is_file, log_path_is_denied.
  rewrite <- listdir_raises, <- get_terminal_logs_raises.
  split; apply do_GET_raises.
Qed.

(** X5.  Routing is by exact match of the request path: a path other than
    the four routes (one with a query string or a trailing slash, say) is
    answered 404, and no route is ever answered 404: the answer to a route
    is 200, with a JSON document for the three [/api] routes. *)
Theorem unknown_path_iff_404 (w : World) (p : string) (r : Response) :
  do_GET w p = Ok r ->
  (~ In p routes <-> status r = 404)
  /\ (In p routes -> status r = 200)
  /\ (In p ["/api/stats"; "/api/logs"; "/api/terminal"] ->
      content_type r = "application/json"
      /\ exists document, body r = Json (PDict document)).
Proof.
  assert (Hroute : forall q, In q routes ->
            (~ In q routes <-> 200 = 404) /\ (In q routes -> 200 = 200)).
  { intros q Hq. split; [split; [contradiction|discriminate]|reflexivity]. }
  destruct (do_GET_cases w p)
    as [[-> H]|[[-> H]|[[-> H]|[[-> H]|[Hp H]]]]]; rewrite H; clear H.
  - intros [= <-]. simpl status.
    destruct (Hroute "/") as [H1 H2]; [simpl; auto|].
    split; [exact H1|split; [exact H2|]].
    intros [H|[H|[H|[]]]]; discriminate.
  - unfold serve_stats. destruct (get_project_stats w) as [stats|e];
      simpl; [|discriminate].
    intros [= <-]. simpl status.
    destruct (Hroute "/api/stats") as [H1 H2]; [simpl; auto|].
    split; [exact H1|split; [exact H2|]].
    intros _. split; [reflexivity|now eexists].
  - intros [= <-]. simpl status.
    destruct (Hroute "/api/logs") as [H1 H2]; [simpl; auto|].
    split; [exact H1|split; [exact H2|]].
    intros _. split; [reflexivity|now eexists].
  - unfold serve_terminal_logs. destruct (get_terminal_logs w) as [logs|e];
      simpl; [|discriminate].
    intros [= <-]. simpl status.
    destruct (Hroute "/api/terminal") as [H1 H2]; [simpl; auto|].
    split; [exact H1|split; [exact H2|]].
    intros _. split; [reflexivity|now eexists].
  - intros [= <-]. simpl status.
    split; [split; [reflexivity|intros _; exact Hp]|].
    split; [intros Hin; contradiction|].
    intros Hin. exfalso. apply Hp. simpl in Hin |- *. intuition.
Qed.

Lemma unknown_path_iff_404_witness :
  ~ In "/api/stats?refresh=1" routes <-> status not_found = 404.
Proof.
  apply (unknown_path_iff_404 Sample.bare "/api/stats?refresh=1" not_found).
  reflexivity.
Defined.

(* ===================================================================== *)
(** ** The version-control prober: sentinel, zero, stripped text *)
(* ===================================================================== *)

(** X6.  The probe answers with the "no repository" sentinel exactly when
    the directory has no marker or one of the three sub-calls cannot be
    started; in every other case it answers with a VcsStatus. *)
Theorem sentinel_iff_no_marker_or_raise (w : World) (directory : path) :
  get_git_info w directory = no_git_repository
  <-> OS.path_exists w (OS.path_join directory ".git") = false
      \/ subcall_raises w directory.
Proof.
  unfold get_git_info, git_probe, subcall_raises.
  destruct (OS.path_exists w (OS.path_join directory ".git"));
    [|split; [now left|reflexivity]].
  destruct (subprocess_run w (git_branch_args directory)) as [r1|e1];
    [|split; [right; left; now exists e1|reflexivity]].
  simpl.
  destruct (subprocess_run w (git_status_args directory)) as [r2|e2];
    [|split; [right; right; left; now exists e2|reflexivity]].
  simpl.
  destruct (subprocess_run w (git_log_args directory)) as [r3|e3];
    [|split; [right; right; right; now exists e3|reflexivity]].
  simpl. split; [discriminate|].
  intros [H|[[e H]|[[e H]|[e H]]]]; discriminate.
Qed.

Lemma count_changes_zero (out : string) :
  count_changes out = 0 <-> all_space out = true.
Proof.
  split; [|apply count_changes_all_space].
  unfold count_changes, Str.strip.
  destruct (Str.truthy (Str.rstrip (Str.lstrip out))) eqn:Ht.
  - rewrite split_nl_length. discriminate.
  - intros _. apply truthy_false, rstrip_empty in Ht.
    clear - Ht. induction out as [|c out IH]; [reflexivity|].
    cbn [Str.lstrip all_space] in *. destruct (Str.is_space c) eqn:Hc.
    + simpl. now apply IH.
    + cbn [all_space] in Ht. rewrite Hc in Ht. discriminate.
Qed.

(** X7.  With the marker present and the sub-calls run, the prober reports
    0 uncommitted changes exactly when the status output is empty or all
    white space; any other output is counted as at least one change and at
    most one per line. *)
Theorem zero_changes_iff_blank_output
  (w : World) (directory : path) (r1 r2 r3 : CompletedProcess) :
  has_marker w directory ->
  subcalls_ran w directory r1 r2 r3 ->
  exists n,
    field "uncommitted_changes" (get_git_info w directory)
    = Some (PInt (Z.of_nat n))
    /\ (n = 0 <-> all_space (stdout r2) = true)
    /\ n <= S (count_nl (stdout r2)).
Proof.
  intros Hmarker Hran. exists (count_changes (stdout r2)).
  rewrite (git_info_ran w directory r1 r2 r3 Hmarker Hran).
  split; [reflexivity|]. split; [apply count_changes_zero|].
  unfold count_changes, Str.strip.
  destruct (Str.truthy _); [|lia].
  rewrite split_nl_length.
  pose proof (count_nl_lstrip (stdout r2)).
  assert (Hr : forall s, count_nl (Str.rstrip s) <= count_nl s).
  { induction s as [|c s IH]; [simpl; lia|].
    cbn [Str.rstrip]. destruct (Str.rstrip s) as [|c' r].
    - destruct (Str.is_space c); simpl in *; lia.
    - cbn [count_nl] in *. lia. }
  specialize (Hr (Str.lstrip (stdout r2))). lia.
Qed.

Lemma zero_changes_iff_blank_output_witness :
  exists n,
    field "uncommitted_changes" (get_git_info Sample.no_commit_yet IOS_DIR)
    = Some (PInt (Z.of_nat n))
    /\ (n = 0 <-> all_space "" = true)
    /\ n <= S (count_nl "").
Proof.
  apply (zero_changes_iff_blank_output Sample.no_commit_yet IOS_DIR
           Sample.on_main (mkCompleted 0 "") (mkCompleted 128 "")).
  - reflexivity.
  - repeat split; reflexivity.
Defined.

Lemma lstrip_no_lead (s : string) : starts_space (Str.lstrip s) = false.
Proof.
  induction s as [|c s IH]; [reflexivity|].
  cbn [Str.lstrip]. destruct (Str.is_space c) eqn:Hc; [exact IH|exact Hc].
Qed.

Lemma rstrip_no_trail (s : string) : ends_space (Str.rstrip s) = false.
Proof.
  induction s as [|c s IH]; [reflexivity|].
  cbn [Str.rstrip]. destruct (Str.rstrip s) as [|c' r].
  - destruct (Str.is_space c) eqn:Hc; [reflexivity|exact Hc].
  - exact IH.
Qed.

Lemma rstrip_keeps_lead (s : string) :
  starts_space s = false -> starts_space (Str.rstrip s) = false.
Proof.
  destruct s as [|c s]; [reflexivity|].
  cbn [Str.rstrip starts_space]. intros Hc.
  destruct (Str.rstrip s); [now rewrite Hc|exact Hc].
Qed.

Lemma strip_trimmed (s : string) : trimmed (Str.strip s).
Proof.
  split; [apply rstrip_keeps_lead, lstrip_no_lead|apply rstrip_no_trail].
Qed.

Lemma strip_all_space (s : string) : all_space s = true -> Str.strip s = "".
Proof.
  intros H. unfold Str.strip.
  assert (Hl : Str.lstrip s = "").
  { induction s as [|c s IH]; [reflexivity|].
    simpl in *. apply andb_prop in H as [-> Hs]. now apply IH. }
  now rewrite Hl.
Qed.

(** X8.  With the marker present and the sub-calls run, the branch and the
    last commit the prober reports never carry white space at either end:
    each is the stripped output of its sub-call, or its placeholder.  A
    branch sub-call that succeeds and prints nothing (a detached HEAD)
    gives the empty branch, not the placeholder. *)
Theorem reported_text_is_stripped
  (w : World) (directory : path) (r1 r2 r3 : CompletedProcess) :
  has_marker w directory ->
  subcalls_ran w directory r1 r2 r3 ->
  exists branch changes last_commit,
    get_git_info w directory
    = vcs_status (PStr branch) (PInt changes) (PStr last_commit)
    /\ trimmed branch /\ trimmed last_commit
    /\ (returncode r1 = 0%Z -> all_space (stdout r1) = true -> branch = "").
Proof.
  intros Hmarker Hran.
  rewrite (git_info_ran w directory r1 r2 r3 Hmarker Hran).
  eexists _, _, _. split; [reflexivity|].
  split; [|split].
  - destruct (returncode r1 =? 0)%Z; [apply strip_trimmed|now split].
  - destruct (returncode r3 =? 0)%Z; [apply strip_trimmed|now split].
  - intros H1 Hblank. apply Z.eqb_eq in H1. rewrite H1.
    now apply strip_all_space.
Qed.

Lemma reported_text_is_stripped_witness :
  exists branch changes last_commit,
    get_git_info Fixture.detached_head IOS_DIR
    = vcs_status (PStr branch) (PInt changes) (PStr last_commit)
    /\ trimmed branch /\ trimmed last_commit
    /\ (0%Z = 0%Z -> all_space "" = true -> branch = "").
Proof.
  apply (reported_text_is_stripped Fixture.detached_head IOS_DIR
           (mkCompleted 0 "") (mkCompleted 0 "")
           (mkCompleted 0 ("  1a2b3c4 Initial commit " ++ Sample.lf))).
  - reflexivity.
  - repeat split; reflexivity.
Defined.

(* ===================================================================== *)
(** ** The file-system prober: the search for the latest file *)
(* ===================================================================== *)

Lemma node_ind_forall (P : node -> Prop) :
  (forall t c, P (File t c)) ->
  (forall t es, Forall (fun e => P (snd e)) es -> P (Dir t es)) ->
  (forall t, P (Denied t)) ->
  P Broken ->
  forall n, P n.
Proof.
  intros HFile HDir HDenied HBroken.
  apply (node_entries_ind P (Forall (fun e => P (snd e)))); auto.
Qed.

Lemma walk_node_dir (root : path) (t : Z) (es : list (string * node)) :
  OS.walk_node root (Dir t es)
  = (root, OS.dirnames es, OS.filenames es)
    :: flat_map (fun e => OS.walk_node (OS.path_join root (fst e)) (snd e)) es.
Proof.
  simpl. f_equal. induction es as [|[name child] es IH]; simpl;
    [reflexivity|now rewrite IH].
Qed.

Lemma tree_files_dir (extensions : list string) (root : path) (t : Z)
  (es : list (string * node)) :
  tree_files extensions root (Dir t es)
  = (files_here extensions root es
     ++ flat_map (fun e => tree_files extensions (OS.path_join root (fst e))
                             (snd e)) es)%list.
Proof.
  simpl. f_equal. induction es as [|[name child] es IH]; simpl;
    [reflexivity|now rewrite IH].
Qed.

Lemma wf_node_dir (t : Z) (es : list (string * node)) :
  wf_node (Dir t es)
  <-> NoDup (map fst es) /\ Forall (fun e => wf_node (snd e)) es.
Proof.
  simpl. apply and_iff_compat_l.
  induction es as [|[name child] es IH]; simpl.
  - split; [constructor|trivial].
  - rewrite IH. split.
    + intros [H1 H2]. now constructor.
    + intros H. inversion H; subst. now split.
Qed.

Lemma get_in {V : Type} (k : string) (v : V) (d : list (string * V)) :
  Dict.get k d = Some v -> In (k, v) d.
Proof.
  induction d as [|[k' v'] d IH]; simpl; [discriminate|].
  destruct (String.eqb_spec k k') as [->|_].
  - intros [= ->]. now left.
  - intros H. right. now apply IH.
Qed.

Lemma get_in_nodup {V : Type} (k : string) (v : V) (d : list (string * V)) :
  NoDup (map fst d) -> In (k, v) d -> Dict.get k d = Some v.
Proof.
  induction d as [|[k' v'] d IH]; simpl; [contradiction|].
  intros Hnd [[= -> ->]|Hin].
  - now rewrite String.eqb_refl.
  - inversion Hnd; subst.
    destruct (String.eqb_spec k k') as [->|_]; [|now apply IH].
    exfalso. apply H1. apply (in_map fst) in Hin. exact Hin.
Qed.

Lemma for_each_app {S A : Type} (f : S -> A -> result S) (l1 l2 : list A)
  (s : S) :
  for_each f (l1 ++ l2)%list s = rbind (for_each f l1 s) (for_each f l2).
Proof.
  revert s. induction l1 as [|a l1 IH]; intros s; simpl; [reflexivity|].
  destruct (f s a); simpl; [apply IH|reflexivity].
Qed.

Lemma search_app (l1 l2 : list (path * option Z)) (st : latest) :
  search st (l1 ++ l2)%list = rbind (search st l1) (fun st' => search st' l2).
Proof.
  revert st. induction l1 as [|[p [m|]] l1 IH]; intros st; simpl;
    [reflexivity|apply IH|reflexivity].
Qed.

(** A search over candidates that all have a modification time compares
    them all; one candidate without makes it fail. *)
Lemma search_all_dated (l : list (path * option Z)) (st : latest) :
  all_dated l = true -> search st l = Ok (fold_left pick (dated l) st).
Proof.
  revert st. induction l as [|[p [m|]] l IH]; intros st H; simpl in *;
    [reflexivity|now apply IH|discriminate].
Qed.

Lemma search_not_dated (l : list (path * option Z)) (st : latest) :
  all_dated l = false -> exists e, search st l = Raise e.
Proof.
  revert st. induction l as [|[p [m|]] l IH]; intros st H; simpl in *;
    [discriminate|now apply IH|now eexists].
Qed.

Lemma all_dated_in (l : list (path * option Z)) :
  all_dated l = true <-> forall p, ~ In (p, None) l.
Proof.
  induction l as [|[q [m|]] l IH]; simpl.
  - split; [intros _ p []|reflexivity].
  - rewrite IH. split.
    + intros H p [Hq|Hin]; [discriminate|now apply (H p)].
    + intros H p Hin. apply (H p). now right.
  - split; [discriminate|]. intros H. exfalso. apply (H q). now left.
Qed.

Lemma not_dated_in (l : list (path * option Z)) :
  all_dated l = false -> exists p, In (p, None) l.
Proof.
  induction l as [|[q [m|]] l IH]; simpl; intros H.
  - discriminate.
  - destruct (IH H) as [p Hp]. exists p. now right.
  - exists q. now left.
Qed.

Lemma dated_in (l : list (path * option Z)) (p : path) (m : Z) :
  In (p, m) (dated l) <-> In (p, Some m) l.
Proof.
  induction l as [|[q [u|]] l IH]; simpl.
  - reflexivity.
  - rewrite IH. split; intros [H|H]; auto; left; congruence.
  - rewrite IH. split; [now right|]. intros [H|H]; [discriminate|exact H].
Qed.

Section Search.

Variable w : World.
Variable extensions : list string.

Lemma getmtime_entry (root : path) (t : Z) (es : list (string * node))
  (e : string * node) :
  OS.resolve w root = Some (Dir t es) ->
  NoDup (map fst es) ->
  In e es ->
  OS.resolve w (OS.path_join root (fst e)) = Some (snd e)
  /\ OS.getmtime w (OS.path_join root (fst e))
     = match node_mtime (snd e) with
       | Some m => Ok m
       | None => Raise (OS.no_such_file (OS.path_join root (fst e)))
       end.
Proof.
  intros Hroot Hnd Hin. unfold OS.getmtime.
  rewrite resolve_join, Hroot. simpl.
  destruct e as [name n]. simpl.
  now rewrite (get_in_nodup name n es Hnd Hin).
Qed.

Lemma scan_entries (root : path) (l : list (string * node)) (st : latest) :
  (forall e, In e l ->
     OS.getmtime w (OS.path_join root (fst e))
     = match node_mtime (snd e) with
       | Some m => Ok m
       | None => Raise (OS.no_such_file (OS.path_join root (fst e)))
       end) ->
  for_each (scan_file w extensions root) (OS.filenames l) st
  = search st (files_here extensions root l).
Proof.
  unfold OS.filenames, files_here. revert st.
  induction l as [|e l IH]; intros st Hm; [reflexivity|].
  simpl. destruct (is_dir (snd e)); simpl.
  - apply IH. intros e' He'. apply Hm. now right.
  - unfold scan_file at 1. fold (matches extensions (fst e)).
    destruct (matches extensions (fst e)); simpl.
    + rewrite (Hm e (or_introl eq_refl)).
      destruct (node_mtime (snd e)) as [m|]; simpl; [|reflexivity].
      unfold pick at 1. simpl.
      destruct (fst st <? m)%Z; simpl;
        apply IH; intros e' He'; apply Hm; now right.
    + apply IH. intros e' He'. apply Hm. now right.
Qed.

Lemma scan_subdirs (root : path) (l : list (string * node)) (st : latest) :
  Forall (fun e =>
            forall st',
              for_each (scan_dir w extensions)
                (OS.walk_node (OS.path_join root (fst e)) (snd e)) st'
              = search st'
                  (tree_files extensions (OS.path_join root (fst e))
                     (snd e))) l ->
  for_each (scan_dir w extensions)
    (flat_map (fun e => OS.walk_node (OS.path_join root (fst e)) (snd e)) l)
    st
  = search st
      (flat_map (fun e => tree_files extensions
                            (OS.path_join root (fst e)) (snd e)) l).
Proof.
  intros H. revert st. induction H as [|e l He _ IH]; intros st; simpl;
    [reflexivity|].
  rewrite for_each_app, He, search_app.
  destruct (search st _); simpl; [apply IH|reflexivity].
Qed.

(** The loops of [get_last_modified] over a well-formed tree go through
    the candidates of the tree in walk order, up to the first one whose
    modification time cannot be read. *)
Lemma scan_walk (n : node) :
  forall top st,
    OS.resolve w top = Some n ->
    wf_node n ->
    for_each (scan_dir w extensions) (OS.walk_node top n) st
    = search st (tree_files extensions top n).
Proof.
  induction n as [t c|t es IH|t|] using node_ind_forall;
    intros top st Htop Hwf; try reflexivity.
  apply wf_node_dir in Hwf as [Hnd Hwf].
  rewrite walk_node_dir, tree_files_dir, search_app. simpl.
  rewrite scan_entries
    by (intros e He; apply (getmtime_entry top t es e Htop Hnd He)).
  destruct (search st (files_here extensions top es)); simpl;
    [|reflexivity].
  apply scan_subdirs.
  rewrite Forall_forall in IH, Hwf |- *. intros e He st'.
  apply IH; [exact He| |now apply Hwf].
  apply (getmtime_entry top t es e Htop Hnd He).
Qed.

(** The candidates of the tree are the matching names that a path below
    its top resolves to and that are not directories. *)
Lemma tree_files_sound (n : node) :
  forall top p m,
    wf_node n ->
    In (p, m) (tree_files extensions top n) ->
    exists below name nd,
      p = (top ++ below ++ [name])%list
      /\ resolve_from n (below ++ [name])%list = Some nd
      /\ is_dir nd = false
      /\ node_mtime nd = m
      /\ matches extensions name = true.
Proof.
  induction n as [t c|t es IH|t|] using node_ind_forall;
    intros top p m Hwf Hin; try (now destruct Hin).
  apply wf_node_dir in Hwf as [Hnd Hwf].
  rewrite tree_files_dir in Hin. apply in_app_or in Hin as [Hin|Hin].
  - unfold files_here in Hin. apply in_map_iff in Hin as ([name n] & He & Hin).
    apply filter_In in Hin as [Hin Hf]. simpl in He, Hf.
    injection He as <- <-.
    apply andb_prop in Hf as [Hd Hm]. apply negb_true_iff in Hd.
    exists [], name, n. simpl. rewrite (get_in_nodup _ _ _ Hnd Hin).
    now repeat split.
  - apply in_flat_map in Hin as ([name n] & He & Hin). simpl in Hin.
    rewrite Forall_forall in IH, Hwf.
    destruct (IH _ He _ _ _ (Hwf _ He) Hin)
      as (below & name' & nd & -> & Hr & Hd & Hs & Hm).
    exists (name :: below), name', nd. simpl.
    rewrite (get_in_nodup _ _ _ Hnd He). unfold OS.path_join.
    rewrite <- app_assoc. now repeat split.
Qed.

Lemma tree_files_complete (below : path) :
  forall n top name nd,
    resolve_from n (below ++ [name])%list = Some nd ->
    is_dir nd = false ->
    matches extensions name = true ->
    In ((top ++ below ++ [name])%list, node_mtime nd)
       (tree_files extensions top n).
Proof.
  induction below as [|d below IH]; intros n top name nd Hr Hd Hm.
  - destruct n as [t c'|t es|t|]; try discriminate.
    simpl in Hr. destruct (Dict.get name es) as [n'|] eqn:Hget;
      [|discriminate].
    injection Hr as ->. apply get_in in Hget.
    rewrite tree_files_dir. apply in_or_app. left.
    unfold files_here. apply in_map_iff. exists (name, nd).
    split; [reflexivity|]. apply filter_In. simpl. now rewrite Hd, Hm.
  - destruct n as [t c'|t es|t|]; try discriminate.
    simpl in Hr. destruct (Dict.get d es) as [n'|] eqn:Hget; [|discriminate].
    apply get_in in Hget.
    rewrite tree_files_dir. apply in_or_app. right.
    apply in_flat_map. exists (d, n'). split; [exact Hget|]. simpl.
    specialize (IH n' (OS.path_join top d) name nd Hr Hd Hm).
    unfold OS.path_join in *. now rewrite <- app_assoc in IH.
Qed.

End Search.

(** The latest of a list of candidates. *)
Lemma pick_latest (l : list (path * Z)) (st : latest) :
  let st' := fold_left pick l st in
  (fst st <= fst st')%Z
  /\ (forall p m, In (p, m) l -> (m <= fst st')%Z)
  /\ (st' = st
      \/ exists p, snd st' = Some p /\ In (p, fst st') l
                   /\ (fst st < fst st')%Z).
Proof.
  revert st. induction l as [|[q u] l IH]; intros st; simpl.
  - split; [lia|]. split; [intros p m []|now left].
  - destruct (IH (pick st (q, u))) as (Hle & Hmax & Hres).
    assert (Hpick : (fst st <= fst (pick st (q, u)))%Z
                    /\ (u <= fst (pick st (q, u)))%Z).
    { unfold pick. simpl. destruct (Z.ltb_spec (fst st) u); simpl; lia. }
    split; [lia|]. split.
    + intros p m [[= -> ->]|Hin]; [lia|now apply (Hmax p)].
    + destruct Hres as [Hsame|(p & Hp & Hin & Hlt)].
      * rewrite Hsame. unfold pick. simpl.
        destruct (Z.ltb_spec (fst st) u); simpl; [|now left].
        right. exists q. repeat split; [now left|lia].
      * right. exists p. repeat split; [exact Hp|now right|lia].
Qed.

Lemma sapp_assoc (s1 s2 s3 : string) : (s1 ++ s2) ++ s3 = s1 ++ s2 ++ s3.
Proof. induction s1 as [|c s1 IH]; simpl; [reflexivity|now rewrite IH]. Qed.

Lemma path_str_app (p q : path) :
  path_str (p ++ q)%list = path_str p ++ path_str q.
Proof.
  induction p as [|c p IH]; simpl; [reflexivity|].
  now rewrite IH, sapp_assoc.
Qed.

Lemma path_str_truthy (p : path) : p <> [] -> Str.truthy (path_str p) = true.
Proof. destruct p; [congruence|reflexivity]. Qed.

Lemma prefix_app (d r : string) : String.prefix d (d ++ r) = true.
Proof.
  induction d as [|c d IH]; simpl.
  - now destruct r.
  - destruct (ascii_dec c c); [exact IH|congruence].
Qed.

Lemma remove_go_skip (d s1 s2 : string) :
  Str.remove_go d (String.length s1) (s1 ++ s2) = Str.remove_go d 0 s2.
Proof.
  induction s1 as [|c s1 IH]; simpl; [|exact IH].
  destruct s2; reflexivity.
Qed.

(** The occurrence of the directory at the front is removed first. *)
Lemma remove_all_prefix (d r : string) :
  Str.remove_all d (d ++ r) = Str.remove_all d r.
Proof.
  destruct d as [|c d]; [reflexivity|].
  unfold Str.remove_all.
  change (String c d ++ r) with (String c (d ++ r)).
  cbn [Str.remove_go].
  change (String c (d ++ r)) with (String c d ++ r).
  rewrite prefix_app. cbn [String.length]. rewrite Nat.sub_1_r. simpl pred.
  apply remove_go_skip.
Qed.

Lemma remove_all_absent (d r : string) :
  Str.contains d r = false -> Str.remove_all d r = r.
Proof.
  destruct d as [|c d]; [reflexivity|].
  unfold Str.remove_all. induction r as [|c' r IH]; [reflexivity|].
  cbn [Str.contains Str.remove_go]. intros H.
  apply orb_false_elim in H as [Hp Hc]. rewrite Hp. now rewrite IH.
Qed.

Section Latest.

Variable w : World.
Variable directory : path.
Variable extensions : list string.
Hypothesis Hwf : forall n, OS.resolve w directory = Some n -> wf_node n.

Lemma file_below_in_tree (n : node) (rel : path) (m : Z) :
  OS.resolve w directory = Some n ->
  file_below w directory extensions rel m ->
  In ((directory ++ rel)%list, Some m) (tree_files extensions directory n).
Proof.
  intros Hn (below & name & c & -> & Hr & Hm).
  unfold OS.resolve in Hn, Hr. rewrite resolve_from_app, Hn in Hr.
  now apply (tree_files_complete extensions below n directory name
               (File m c)).
Qed.

Lemma link_below_in_tree (n : node) (rel : path) :
  OS.resolve w directory = Some n ->
  link_below w directory extensions rel ->
  In ((directory ++ rel)%list, None) (tree_files extensions directory n).
Proof.
  intros Hn (below & name & -> & Hr & Hm).
  unfold OS.resolve in Hn, Hr. rewrite resolve_from_app, Hn in Hr.
  now apply (tree_files_complete extensions below n directory name Broken).
Qed.

Lemma in_tree_file_below (n : node) (p : path) (m : Z) :
  OS.resolve w directory = Some n ->
  In (p, Some m) (tree_files extensions directory n) ->
  exists rel, p = (directory ++ rel)%list
              /\ file_below w directory extensions rel m.
Proof.
  intros Hn Hin.
  destruct (tree_files_sound extensions n directory p _ (Hwf n Hn) Hin)
    as (below & name & nd & -> & Hr & Hd & Hs & Hm).
  destruct nd as [t c|t es|t|]; try discriminate.
  injection Hs as ->.
  exists (below ++ [name])%list. split; [reflexivity|].
  exists below, name, c. split; [reflexivity|]. split; [|exact Hm].
  unfold OS.resolve in Hn |- *. now rewrite resolve_from_app, Hn.
Qed.

Lemma in_tree_link_below (n : node) (p : path) :
  OS.resolve w directory = Some n ->
  In (p, None) (tree_files extensions directory n) ->
  exists rel, link_below w directory extensions rel.
Proof.
  intros Hn Hin.
  destruct (tree_files_sound extensions n directory p _ (Hwf n Hn) Hin)
    as (below & name & nd & -> & Hr & Hd & Hs & Hm).
  destruct nd as [t c|t es|t|]; try discriminate.
  exists (below ++ [name])%list, below, name.
  split; [reflexivity|]. split; [|exact Hm].
  unfold OS.resolve in Hn |- *. now rewrite resolve_from_app, Hn.
Qed.

Lemma file_below_resolves (rel : path) (m : Z) :
  file_below w directory extensions rel m ->
  exists n, OS.resolve w directory = Some n.
Proof.
  intros (below & name & c & _ & Hr & _).
  unfold OS.resolve in *. rewrite resolve_from_app in Hr.
  destruct (resolve_from (fs_root w) directory) as [n|];
    [now exists n|discriminate].
Qed.

Lemma link_below_resolves (rel : path) :
  link_below w directory extensions rel ->
  exists n, OS.resolve w directory = Some n.
Proof.
  intros (below & name & _ & Hr & _).
  unfold OS.resolve in *. rewrite resolve_from_app in Hr.
  destruct (resolve_from (fs_root w) directory) as [n|];
    [now exists n|discriminate].
Qed.

(** No candidate of the tree is a link whose target is missing, as soon as
    every candidate of the tree has a modification time. *)
Lemma no_link_below :
  (forall n, OS.resolve w directory = Some n ->
             all_dated (tree_files extensions directory n) = true) ->
  forall rel, ~ link_below w directory extensions rel.
Proof.
  intros Hall rel Hlink.
  destruct (link_below_resolves rel Hlink) as [n Hn].
  apply (proj1 (all_dated_in _) (Hall n Hn) (directory ++ rel)%list).
  now apply link_below_in_tree.
Qed.

Lemma last_modified_cases :
  ((exists rel, link_below w directory extensions rel)
   /\ get_last_modified w directory extensions = PNone)
  \/ ((forall rel, ~ link_below w directory extensions rel)
      /\ ((exists rel m,
              file_below w directory extensions rel m
              /\ (0 < m)%Z
              /\ (forall rel' m',
                    file_below w directory extensions rel' m' -> (m' <= m)%Z)
              /\ get_last_modified w directory extensions
                 = report w directory rel m)
          \/ (get_last_modified w directory extensions = PNone
              /\ forall rel m,
                   file_below w directory extensions rel m -> (m <= 0)%Z))).
Proof.
  unfold get_last_modified, scan_tree, OS.walk.
  case_eq (OS.resolve w directory).
  - intros n Hn. rewrite (scan_walk w extensions n directory _ Hn (Hwf n Hn)).
    destruct (all_dated (tree_files extensions directory n)) eqn:Hall.
    + right. split.
      { apply no_link_below. intros n' Hn'. congruence. }
      rewrite (search_all_dated _ _ Hall).
      pose proof (pick_latest (dated (tree_files extensions directory n))
                    (0%Z, None)) as (_ & Hmax & Hres).
      destruct (fold_left pick (dated (tree_files extensions directory n))
                  (0%Z, None)) as [t o]. simpl in Hmax, Hres.
      assert (Hle : forall rel m,
                 file_below w directory extensions rel m -> (m <= t)%Z).
      { intros rel m Hfile. apply (Hmax (directory ++ rel)%list).
        apply dated_in. now apply file_below_in_tree. }
      destruct Hres as [[= -> ->]|(p & -> & Hin & Hlt)].
      * right. split; [reflexivity|exact Hle].
      * left. apply dated_in in Hin.
        destruct (in_tree_file_below n p t Hn Hin) as (rel & -> & Hfile).
        exists rel, t. repeat split; [exact Hfile|exact Hlt|exact Hle|].
        unfold report. rewrite path_str_truthy.
        -- now rewrite path_str_app, remove_all_prefix.
        -- destruct Hfile as (below & name & _ & -> & _).
           intros H. apply app_eq_nil in H as [_ H].
           apply app_eq_nil in H as [_ H]. discriminate.
    + left. split.
      * destruct (not_dated_in _ Hall) as [p Hp].
        now apply (in_tree_link_below n p Hn).
      * destruct (search_not_dated _ (0%Z, None) Hall) as [e ->].
        reflexivity.
  - intros Hnone. right. split.
    + intros rel Hlink. apply link_below_resolves in Hlink as [n Hn].
      congruence.
    + right. split; [reflexivity|].
      intros rel m Hfile. apply file_below_resolves in Hfile as [n Hn].
      congruence.
Qed.

End Latest.

(** X9.  In a file system where no directory lists a name twice, the
    search for the latest file does this.  When a name of the tree that
    ends in one of the extensions is a link whose target is missing,
    reading its modification time fails and the search reports nothing,
    whatever else the tree holds.  Otherwise it finds the file of the tree
    whose name ends in one of the extensions and whose modification time is
    positive and at least that of every other such file, and reports it
    with that time (nothing, when [datetime] cannot render the time); or it
    finds none and reports nothing, and then no such file has a positive
    modification time (this includes a directory that is missing, empty,
    not readable, or is itself a file). *)
Theorem last_modified_is_latest
  (w : World) (directory : path) (extensions : list string) :
  (forall n, OS.resolve w directory = Some n -> wf_node n) ->
  ((exists rel, link_below w directory extensions rel) ->
   get_last_modified w directory extensions = PNone)
  /\ ((forall rel, ~ link_below w directory extensions rel) ->
      (exists rel m,
          file_below w directory extensions rel m
          /\ (0 < m)%Z
          /\ (forall rel' m',
                file_below w directory extensions rel' m' -> (m' <= m)%Z)
          /\ get_last_modified w directory extensions
             = report w directory rel m)
      \/ (get_last_modified w directory extensions = PNone
          /\ forall rel m,
               file_below w directory extensions rel m -> (m <= 0)%Z)).
Proof.
  intros Hwf.
  destruct (last_modified_cases w directory extensions Hwf)
    as [[Hlink Hnone]|[Hnolink Hres]]; split.
  - intros _. exact Hnone.
  - intros Hno. destruct Hlink as [rel Hrel]. now destruct (Hno rel).
  - intros [rel Hrel]. now destruct (Hnolink rel).
  - intros _. exact Hres.
Qed.

Lemma last_modified_is_latest_witness :
  get_last_modified Fixture.dangling_link IOS_DIR [".swift"] = PNone
  /\ exists rel m,
       file_below (Sample.scenario 100 200 300) IOS_DIR [".swift"] rel m
       /\ (forall rel' m',
             file_below (Sample.scenario 100 200 300) IOS_DIR [".swift"]
               rel' m' ->
             (m' <= m)%Z)
       /\ get_last_modified (Sample.scenario 100 200 300) IOS_DIR [".swift"]
          = PDict [("file", PStr "/sub/c.swift");
                   ("time", PStr "2025-06-01T12:00:00")].
Proof.
  split.
  - apply (last_modified_is_latest Fixture.dangling_link IOS_DIR [".swift"]).
    + intros n [= <-]. simpl.
      repeat split; repeat constructor; simpl; intuition discriminate.
    + exists ["sub"; "gone.swift"], ["sub"], "gone.swift".
      repeat split; reflexivity.
  - destruct (last_modified_is_latest (Sample.scenario 100 200 300) IOS_DIR
                [".swift"])
      as [_ Hfound].
    + intros n [= <-]. simpl.
      repeat split; repeat constructor; simpl; intuition discriminate.
    + destruct Hfound as [(rel & m & Hfile & Hpos & Hmax & Hres)|[Hnone _]].
      * apply no_link_below.
        -- intros n [= <-]. simpl.
           repeat split; repeat constructor; simpl; intuition discriminate.
        -- intros n [= <-]. reflexivity.
      * exists rel, m. split; [exact Hfile|]. split; [exact Hmax|].
        reflexivity.
      * discriminate Hnone.
Defined.

(** The search on a tree with a dangling link, and on a tree whose latest
    file is dated beyond the range of [datetime]: nothing is reported,
    though a file with a positive modification time is there. *)
Example last_modified_gives_up :
  get_last_modified Fixture.dangling_link IOS_DIR [".swift"] = PNone
  /\ file_below Fixture.dangling_link IOS_DIR [".swift"] ["a.swift"] 10
  /\ get_last_modified Fixture.far_future IOS_DIR [".swift"] = PNone
  /\ file_below Fixture.far_future IOS_DIR [".swift"] ["b.swift"]
       1000000000000.
Proof.
  split; [reflexivity|]. split; [now exists [], "a.swift", (Ok [])|].
  split; [reflexivity|]. now exists [], "b.swift", (Ok []).
Qed.

(** X10.  The file the search reports is named relative to the directory:
    the text of the directory is taken off the front of the path.  As
    [str.replace] removes every occurrence, the result is the relative
    path itself whenever the text of the directory does not occur again
    inside it, and otherwise those occurrences are removed as well. *)
Theorem reported_file_is_relative
  (w : World) (directory : path) (extensions : list string) (f ts : string) :
  (forall n, OS.resolve w directory = Some n -> wf_node n) ->
  get_last_modified w directory extensions
  = PDict [("file", PStr f); ("time", PStr ts)] ->
  exists rel m,
    file_below w directory extensions rel m
    /\ f = Str.remove_all (path_str directory) (path_str rel)
    /\ (Str.contains (path_str directory) (path_str rel) = false ->
        f = path_str rel).
Proof.
  intros Hwf Hres.
  destruct (last_modified_cases w directory extensions Hwf)
    as [[_ H]|[_ [(rel & m & Hfile & _ & _ & H)|[H _]]]];
    rewrite H in Hres; try discriminate.
  unfold report in Hres.
  destruct (fromtimestamp_iso w m) as [time|e]; [|discriminate].
  injection Hres as <- _. exists rel, m. split; [exact Hfile|].
  split; [reflexivity|apply remove_all_absent].
Qed.

Lemma reported_file_is_relative_witness :
  exists rel m,
    file_below Fixture.nested_twice IOS_DIR [".swift"] rel m
    /\ "/deep.swift" = Str.remove_all (path_str IOS_DIR) (path_str rel)
    /\ (Str.contains (path_str IOS_DIR) (path_str rel) = false ->
        "/deep.swift" = path_str rel).
Proof.
  apply (reported_file_is_relative Fixture.nested_twice IOS_DIR [".swift"]
           "/deep.swift" "2025-06-01T12:00:00").
  - intros n [= <-]. simpl.
    repeat split; repeat constructor; simpl; intuition discriminate.
  - reflexivity.
Defined.

(* ===================================================================== *)
(** ** The sections: what makes them an error, what they depend on *)
(* ===================================================================== *)


Lemma git_info_but_ps (w1 w2 : World) (directory : path) :
  agree_but_system w1 w2 ->
  get_git_info w1 directory = get_git_info w2 directory.
Proof.
  intros (Hfs & Hrun & _).
  unfold get_git_info, git_probe, OS.path_exists, OS.resolve.
  rewrite Hfs.
  rewrite !Hrun by (unfold git_branch_args, git_status_args, git_log_args,
                      git_args; discriminate).
  reflexivity.
Qed.

Lemma project_section_but_ps (w1 w2 : World) (p : project) :
  agree_but_system w1 w2 ->
  project_section w1 p = project_section w2 p.
Proof.
  intros Hagree. pose proof Hagree as (Hfs & _ & Hiso).
  assert (Hdir : forall d, OS.resolve w1 d = OS.resolve w2 d).
  { intros d. unfold OS.resolve. now rewrite Hfs. }
  destruct p; simpl.
  - rewrite !ios_section_cases.
    now rewrite (local_listdir w1 w2 IOS_DIR (Hdir _)),
      (local_last_modified w1 w2 Hiso IOS_DIR (Hdir _)),
      (git_info_but_ps w1 w2 IOS_DIR Hagree).
  - rewrite !android_section_cases.
    now rewrite (local_listdir w1 w2 ANDROID_DIR (Hdir _)),
      (local_last_modified w1 w2 Hiso ANDROID_DIR (Hdir _)),
      (git_info_but_ps w1 w2 ANDROID_DIR Hagree).
Qed.

(** X12.  When [ps] cannot be started the [system] section of the snapshot
    is exactly [{"error": str(e)}] (the load average is not even asked
    for), and the sections [ios], [android] and [terminal_logs] are those
    of a snapshot taken with [ps] and the load average answering: they do
    not depend on the process table. *)
Theorem unreachable_process_table_is_isolated (w : World) (e : string)
  (snapshot : pydict) :
  get_project_stats w = Ok snapshot ->
  subprocess_run w ["ps"; "aux"] = Raise e ->
  Dict.get "system" snapshot = Some (PDict [("error", PStr e)])
  /\ forall w' snapshot' k,
       agree_but_system w w' ->
       get_project_stats w' = Ok snapshot' ->
       k <> "system" -> k <> "timestamp" ->
       Dict.get k snapshot = Dict.get k snapshot'.
Proof.
  unfold get_project_stats. intros Hstats Hps.
  destruct (get_terminal_logs w) as [logs|e'] eqn:Hlogs; [|discriminate].
  simpl in Hstats. injection Hstats as <-. split.
  - simpl. rewrite system_section_cases, Hps. reflexivity.
  - intros w' snapshot' k Hagree Hstats' Hk Ht.
    pose proof Hagree as (Hfs & _ & _).
    assert (Hl : get_terminal_logs w = get_terminal_logs w').
    { apply get_terminal_logs_local. unfold OS.resolve. now rewrite Hfs. }
    rewrite <- Hl, Hlogs in Hstats'. simpl in Hstats'.
    injection Hstats' as <-.
    pose proof (project_section_but_ps w w' Ios Hagree) as Hios.
    pose proof (project_section_but_ps w w' Android Hagree) as Handroid.
    simpl in Hios, Handroid.
    apply String.eqb_neq in Hk, Ht.
    cbn [Dict.get]. now rewrite Ht, Hk, Hios, Handroid.
Qed.

Lemma unreachable_process_table_is_isolated_witness :
  exists snapshot,
    get_project_stats Fixture.without_ps = Ok snapshot
    /\ Dict.get "system" snapshot
       = Some (PDict [("error",
                       PStr "[Errno 2] No such file or directory: 'ps'")])
    /\ forall snapshot',
         get_project_stats Fixture.with_ps = Ok snapshot' ->
         Dict.get "ios" snapshot = Dict.get "ios" snapshot'
         /\ Dict.get "android" snapshot = Dict.get "android" snapshot'
         /\ Dict.get "terminal_logs" snapshot
            = Dict.get "terminal_logs" snapshot'.
Proof.
  eexists. split; [reflexivity|].
  destruct (unreachable_process_table_is_isolated Fixture.without_ps
              "[Errno 2] No such file or directory: 'ps'" _
              eq_refl eq_refl) as [Hsys Hothers].
  split; [exact Hsys|].
  intros snapshot' Hstats'.
  assert (Hagree : agree_but_system Fixture.without_ps Fixture.with_ps).
  { split; [reflexivity|]. split; [|reflexivity].
    intros args Hargs. simpl. unfold Fixture.tools_without_ps.
    destruct (list_eq_dec string_dec args ["ps"; "aux"]);
      [contradiction|reflexivity]. }
  repeat split; apply (Hothers _ _ _ Hagree Hstats'); discriminate.
Defined.

Lemma lower_char_idem (c : ascii) :
  Str.lower_char (Str.lower_char c) = Str.lower_char c.
Proof. destruct c as [[] [] [] [] [] [] [] []]; reflexivity. Qed.

Lemma lower_char_nl (c : ascii) :
  Ascii.eqb (Str.lower_char c) Str.nl = Ascii.eqb c Str.nl.
Proof. destruct c as [[] [] [] [] [] [] [] []]; reflexivity. Qed.

Lemma lower_idem (s : string) : Str.lower (Str.lower s) = Str.lower s.
Proof.
  induction s as [|c s IH]; simpl; [reflexivity|].
  now rewrite lower_char_idem, IH.
Qed.

Lemma split_nl_lower (s : string) :
  Str.split_nl (Str.lower s) = map Str.lower (Str.split_nl s).
Proof.
  induction s as [|c s IH]; [reflexivity|].
  cbn [Str.lower Str.split_nl]. rewrite lower_char_nl, IH.
  destruct (Ascii.eqb c Str.nl); [reflexivity|].
  destruct (Str.split_nl s); reflexivity.
Qed.

Lemma claude_lines_lower (out : string) :
  claude_lines (Str.lower out) = claude_lines out.
Proof.
  unfold claude_lines. rewrite split_nl_lower.
  induction (Str.split_nl out) as [|l ls IH]; [reflexivity|].
  simpl. rewrite lower_idem.
  destruct (Str.contains "claude" (Str.lower l)); simpl; now rewrite IH.
Qed.

(** X13.  With [ps] and the load average answering, [claude_processes] is
    the number of lines of the [ps] output that contain "claude" in any
    letter case: it is at most the number of lines, it is the same for any
    output that differs in letter case only, and the exit code of [ps] is
    not looked at. *)
Theorem claude_processes_counts_lines
  (w : World) (r : CompletedProcess) (la : Q * Q * Q) :
  subprocess_run w ["ps"; "aux"] = Ok r ->
  os_getloadavg w = Ok la ->
  system_section w
  = [("claude_processes", PInt (Z.of_nat (claude_lines (stdout r))));
     ("load_avg", load_avg_value la)]
  /\ claude_lines (stdout r) <= S (count_nl (stdout r))
  /\ forall out,
       Str.lower out = Str.lower (stdout r) ->
       claude_lines out = claude_lines (stdout r).
Proof.
  intros Hps Hload. rewrite system_section_cases, Hps, Hload.
  split; [reflexivity|]. split.
  - unfold claude_lines. rewrite <- split_nl_length. apply filter_length_le.
  - intros out Hout.
    now rewrite <- (claude_lines_lower out), Hout, claude_lines_lower.
Qed.

Lemma claude_processes_counts_lines_witness :
  system_section Fixture.with_ps
  = [("claude_processes", PInt (Z.of_nat 1));
     ("load_avg", PTuple [PFloat (3 # 2); PFloat (1 # 1); PFloat (1 # 2)])].
Proof.
  refine (proj1 (claude_processes_counts_lines Fixture.with_ps
                   (mkCompleted 0 ("me 1 Claude --resume" ++ Sample.lf ++
                                   "me 2 vim" ++ Sample.lf))
                   (3 # 2, 1 # 1, 1 # 2)%Q _ _)); reflexivity.
Defined.
